(** * skfuzzy.control.visualization : FuzzyVariableVisualizer

    A shallow embedding of [src/skfuzzy/control/visualization.py].

    Numbers.  NumPy's float64 values are idealised as exact rationals
    ([Q]); [0.1], [0.4], [1.01] and [1.] are the rationals the literals
    denote.

    Canvas.  A Matplotlib [Axes] is modelled by what has been drawn on
    it: the list of [Line2D] objects created by [ax.plot], the list of
    filled regions created by [ax.fill_between], the axis limits and
    the axis labels.  A line plotted without an explicit colour takes
    the next colour of the axes' property cycle; a line plotted with
    [color='k'] does not advance the cycle.  Legend, spines and tick
    styling draw no curve, fill or marker and are left out.

    Dictionaries.  A Python mapping is modelled by the sequence its
    [items()] yields, in insertion order ([Dict.t]).  Assigning to an
    existing key replaces the value in place, assigning to a new key
    appends.  The type does not ask the labels of a sequence to be
    distinct; a property that needs it says so ([NoDup]).

    Effects.  The visualizer mutates itself (its axes and its [plots]
    cache); methods are computations in a state-and-exception monad
    over the instance, and the state survives a raised exception as
    it does in Python. *)

From Stdlib Require Import String List QArith Qminmax Bool Arith Lia.
Import ListNotations.

Open Scope string_scope.
Open Scope list_scope.
Open Scope Q_scope.

(** ** Python dictionaries, insertion ordered *)

Module Dict.
Section Dict.
Context {V : Type}.

Definition t := list (string * V).

Definition empty : t := [].

(** [d.items()] *)
Definition items (d : t) : list (string * V) := d.

(** [d.keys()] *)
Definition keys (d : t) : list string := map fst d.

(** [len(d)] *)
Definition len (d : t) : nat := length d.

(** [d[k]], [None] standing for [KeyError] *)
Fixpoint get (k : string) (d : t) : option V :=
  match d with
  | [] => None
  | (k', v) :: r => if String.eqb k k' then Some v else get k r
  end.

(** [d[k] = v] *)
Fixpoint set (k : string) (v : V) (d : t) : t :=
  match d with
  | [] => [(k, v)]
  | (k', v') :: r =>
      if String.eqb k k' then (k', v) :: r else (k', v') :: set k v r
  end.

End Dict.
Arguments t : clear implicits.
End Dict.

(** ** Exceptions and the instance monad *)

(** The result of running a method: it returns a value or raises an
    exception, identified by the name of its class. *)
Inductive outcome (A : Type) : Type :=
| Returned (a : A)
| Raised (exc : string).
Arguments Returned {A} a.
Arguments Raised {A} exc.

(** ** The canvas *)

Inductive Color : Type :=
| CycleColor (n : nat)        (* n-th colour drawn from the property cycle *)
| NamedColor (name : string). (* an explicit colour such as ['k'] *)

Record Line2D : Type := mkLine2D {
  xdata : list Q;
  ydata : list Q;
  line_label : string;
  linewidth : Q;
  line_color : Color
}.

(** [line.get_color()] *)
Definition get_color (l : Line2D) : Color := line_color l.

Record PolyCollection : Type := mkPoly {
  fill_x : list Q;
  fill_y1 : list Q;
  fill_y2 : list Q;
  facecolor : Color;
  alpha : Q
}.

Record Axes : Type := mkAxes {
  ylim : option (Q * Q);
  xlim : option (Q * Q);
  lines : list Line2D;
  collections : list PolyCollection;
  prop_cycle : nat;
  ylabel : option string;
  xlabel : option string
}.

(** The axes of [plt.subplots()]: nothing drawn yet. *)
Definition subplots : Axes :=
  mkAxes None None [] [] 0 None None.

Definition set_ylim (lim : Q * Q) (a : Axes) : Axes :=
  mkAxes (Some lim) (xlim a) (lines a) (collections a) (prop_cycle a)
         (ylabel a) (xlabel a).

Definition set_xlim (lim : Q * Q) (a : Axes) : Axes :=
  mkAxes (ylim a) (Some lim) (lines a) (collections a) (prop_cycle a)
         (ylabel a) (xlabel a).

Definition set_ylabel (s : string) (a : Axes) : Axes :=
  mkAxes (ylim a) (xlim a) (lines a) (collections a) (prop_cycle a)
         (Some s) (xlabel a).

Definition set_xlabel (s : string) (a : Axes) : Axes :=
  mkAxes (ylim a) (xlim a) (lines a) (collections a) (prop_cycle a)
         (ylabel a) (Some s).

(** [ax.plot(x, y, label=.., linewidth=..)]: the new line takes the
    next colour of the cycle.  Returns the line and the axes. *)
Definition plot (x y : list Q) (lbl : string) (lw : Q) (a : Axes)
  : Line2D * Axes :=
  let l := mkLine2D x y lbl lw (CycleColor (prop_cycle a)) in
  (l, mkAxes (ylim a) (xlim a) (lines a ++ [l]) (collections a)
             (S (prop_cycle a)) (ylabel a) (xlabel a)).

(** [ax.plot(x, y, color=.., lw=.., label=..)]: explicit colour, the
    cycle is left where it is. *)
Definition plot_color (x y : list Q) (c : string) (lw : Q) (lbl : string)
           (a : Axes) : Line2D * Axes :=
  let l := mkLine2D x y lbl lw (NamedColor c) in
  (l, mkAxes (ylim a) (xlim a) (lines a ++ [l]) (collections a)
             (prop_cycle a) (ylabel a) (xlabel a)).

(** [ax.fill_between(x, y1, y2, facecolor=.., alpha=..)] *)
Definition fill_between (x y1 y2 : list Q) (c : Color) (al : Q) (a : Axes)
  : PolyCollection * Axes :=
  let p := mkPoly x y1 y2 c al in
  (p, mkAxes (ylim a) (xlim a) (lines a) (collections a ++ [p])
             (prop_cycle a) (ylabel a) (xlabel a)).

(** ** NumPy helpers *)

(** [x < y] on floats *)
Definition Qltb (x y : Q) : bool := negb (Qle_bool y x).

(** [np.zeros_like(a)] *)
Definition zeros_like (a : list Q) : list Q := repeat 0 (length a).

(** [all(a == 0)] *)
Definition all_zero (a : list Q) : bool := forallb (fun y => Qeq_bool y 0) a.

(** [a.min()] and [a.max()]; [None] is the [ValueError] NumPy raises
    on an empty array. *)
Definition array_min (a : list Q) : option Q :=
  match a with
  | [] => None
  | x :: r => Some (fold_left Qmin r x)
  end.

Definition array_max (a : list Q) : option Q :=
  match a with
  | [] => None
  | x :: r => Some (fold_left Qmax r x)
  end.

(** ** Fuzzy variables *)

Record Term : Type := mkTerm {
  term_label : string;
  mf : list Q
}.

(** A variable carries its universe, its terms (keyed by label, in
    insertion order) and, when it has the role, the per-simulation
    store of its crisp input or output value.  [input = None] means
    the object has no attribute [input]; [input = Some f] with
    [f sim = None] means the attribute exists and holds no value for
    [sim].  The simulation context is opaque to this module. *)
Record FuzzyVariable {Simulation : Type} : Type := mkFuzzyVariable {
  universe : list Q;
  label : string;
  terms : Dict.t Term;
  input : option (Simulation -> option Q);
  output : option (Simulation -> option Q)
}.
Arguments FuzzyVariable : clear implicits.
Arguments mkFuzzyVariable {Simulation}.

(** What the module imports from the rest of the package. *)
Class Collaborators (Simulation : Type) : Type := {
  (** [ControlSystemSimulation(ControlSystem())], the empty simulation
      used when [view] is called without one. *)
  empty_simulation : Simulation;
  (** [CrispValueCalculator(var, sim).find_memberships()], from
      controlsystem.py: the aggregate output membership curve and the
      cut curve of every activated term. *)
  find_memberships :
    FuzzyVariable Simulation -> Simulation -> list Q * Dict.t (list Q);
  (** [interp_membership(x, xmf, xx)], from fuzzymath/fuzzy_ops.py. *)
  interp_membership : list Q -> list Q -> Q -> Q
}.

Section Visualization.

Context {Simulation : Type} {collab : Collaborators Simulation}.

(** The argument of the constructor: a variable, or one of the terms
    of a variable. *)
Inductive Plottable : Type :=
| OfVariable (v : FuzzyVariable Simulation)
| OfTerm (t : Term) (parent_variable : FuzzyVariable Simulation).

Record FuzzyVariableVisualizer : Type := mkVisualizer {
  term : option string;
  fuzzy_var : FuzzyVariable Simulation;
  ax : Axes;
  plots : Dict.t Line2D
}.

(** *** The monad of methods *)

Definition M (A : Type) : Type :=
  FuzzyVariableVisualizer -> outcome A * FuzzyVariableVisualizer.

Definition ret {A} (a : A) : M A := fun self => (Returned a, self).

Definition raise {A} (exc : string) : M A := fun self => (Raised exc, self).

Definition bind {A B} (m : M A) (k : A -> M B) : M B :=
  fun self =>
    match m self with
    | (Returned a, self') => k a self'
    | (Raised e, self') => (Raised e, self')
    end.

Notation "x <- m ;; k" := (bind m (fun x => k))
  (at level 61, m at next level, right associativity).
Notation "m ;;; k" := (bind m (fun _ => k))
  (at level 61, right associativity).

Definition get_self : M FuzzyVariableVisualizer :=
  fun self => (Returned self, self).

(** Run a canvas call on [self.ax]. *)
Definition on_ax {A} (f : Axes -> A * Axes) : M A :=
  fun self =>
    let (r, a) := f (ax self) in
    (Returned r, mkVisualizer (term self) (fuzzy_var self) a (plots self)).

Definition on_ax_ (f : Axes -> Axes) : M unit :=
  on_ax (fun a => (tt, f a)).

(** [self.plots[key] = line] *)
Definition plots_set (key : string) (l : Line2D) : M unit :=
  fun self =>
    (Returned tt,
     mkVisualizer (term self) (fuzzy_var self) (ax self)
                  (Dict.set key l (plots self))).

(** A NumPy reduction that raises [ValueError] on an empty array. *)
Definition reduce (o : option Q) : M Q :=
  match o with
  | Some x => ret x
  | None => raise "ValueError"
  end.

(** [for x in xs: body(x)] *)
Fixpoint for_each {A} (xs : list A) (body : A -> M unit) : M unit :=
  match xs with
  | [] => ret tt
  | x :: r => body x ;;; for_each r body
  end.

(** *** The methods *)

(** [FuzzyVariableVisualizer.__init__] *)
Definition __init__ (fuzzy_var : Plottable) : FuzzyVariableVisualizer :=
  match fuzzy_var with
  | OfTerm t parent_variable =>
      mkVisualizer (Some (term_label t)) parent_variable subplots Dict.empty
  | OfVariable v =>
      mkVisualizer None v subplots Dict.empty
  end.

(** [self.term == key] *)
Definition is_term (self_term : option string) (key : string) : bool :=
  match self_term with
  | Some t => String.eqb t key
  | None => false
  end.

(** [FuzzyVariableVisualizer._init_plot] *)
Definition _init_plot : M unit :=
  self <- get_self ;;
  let var := fuzzy_var self in
  on_ax_ (set_ylim (0, 1.01)) ;;;
  lo <- reduce (array_min (universe var)) ;;
  hi <- reduce (array_max (universe var)) ;;
  on_ax_ (set_xlim (lo, hi)) ;;;
  for_each (Dict.items (terms var)) (fun kt =>
    let key := fst kt in
    let lw := if is_term (term self) key then 3 else 1 in
    l <- on_ax (plot (universe var) (mf (snd kt)) key lw) ;;
    plots_set key l) ;;;
  on_ax_ (set_ylabel "Membership") ;;;
  on_ax_ (set_xlabel (label var)).

(** Lines 85-89 of [view]: the crisp value, by role. *)
Definition crisp_value_of (var : FuzzyVariable Simulation)
           (sim : Simulation) : option Q :=
  match input var with
  | Some inp => inp sim
  | None =>
      match output var with
      | Some out => out sim
      | None => None
      end
  end.

(** The simulation [view] works with. *)
Definition sim_of (sim : option Simulation) : Simulation :=
  match sim with
  | None => empty_simulation
  | Some s => s
  end.

(** [FuzzyVariableVisualizer.view]; returns [self.ax].  The test
    [label in cut_mfs] and the lookup [cut_mfs[label]] are one
    [Dict.get].  The local dictionary [cut_plots] is written and never
    read; it is left out. *)
Definition view (sim : option Simulation) : M Axes :=
  let sim := sim_of sim in
  _init_plot ;;;
  self <- get_self ;;
  let var := fuzzy_var self in
  let (output_mf, cut_mfs) := find_memberships var sim in
  let zeros := zeros_like (universe var) in
  for_each (Dict.items (plots self)) (fun lp =>
    match Dict.get (fst lp) cut_mfs with
    | Some cut =>
        on_ax (fill_between (universe var) zeros cut
                            (get_color (snd lp)) 0.4) ;;; ret tt
    | None => ret tt
    end) ;;;
  (if (0 <? Dict.len cut_mfs)%nat && negb (all_zero output_mf) then
     match crisp_value_of var sim with
     | Some crisp_value =>
         let y := interp_membership (universe var) output_mf crisp_value in
         let y := if Qltb y 0.1 then 1 else y in
         on_ax (plot_color [crisp_value; crisp_value] [0; y]
                           "k" 3 "crisp value") ;;; ret tt
     | None => ret tt
     end
   else ret tt) ;;;
  self <- get_self ;;
  ret (ax self).

(** *** What one call draws

    Closed forms of the two loops, used to state what the methods
    leave on the canvas. *)

(** The curve [_init_plot] draws for one entry of [terms], as the
    [n]-th line of the colour cycle. *)
Definition display_curve (self_term : option string) (univ : list Q)
           (n : nat) (kt : string * Term) : Line2D :=
  mkLine2D univ (mf (snd kt)) (fst kt)
           (if is_term self_term (fst kt) then 3 else 1) (CycleColor n).

Fixpoint display_curves (self_term : option string) (univ : list Q)
         (n : nat) (items : list (string * Term)) : list Line2D :=
  match items with
  | [] => []
  | kt :: r =>
      display_curve self_term univ n kt
        :: display_curves self_term univ (S n) r
  end.

(** [plots] after caching the lines [ls] under their labels, in order. *)
Fixpoint cache_lines (ls : list Line2D) (d : Dict.t Line2D)
  : Dict.t Line2D :=
  match ls with
  | [] => d
  | l :: r => cache_lines r (Dict.set (line_label l) l d)
  end.

(** The curves one call of [_init_plot] draws on [self]. *)
Definition curves_of (self : FuzzyVariableVisualizer) : list Line2D :=
  display_curves (term self) (universe (fuzzy_var self))
                 (prop_cycle (ax self)) (terms (fuzzy_var self)).

(** The fill drawn for one entry of [plots], if its label has a cut. *)
Definition overlay_fill (univ : list Q) (cut_mfs : Dict.t (list Q))
           (lp : string * Line2D) : list PolyCollection :=
  match Dict.get (fst lp) cut_mfs with
  | Some cut => [mkPoly univ (zeros_like univ) cut (get_color (snd lp)) 0.4]
  | None => []
  end.

Definition overlay_fills (univ : list Q) (cut_mfs : Dict.t (list Q))
           (d : Dict.t Line2D) : list PolyCollection :=
  flat_map (overlay_fill univ cut_mfs) d.

(** The marker line for crisp value [x] over the aggregate curve. *)
Definition marker (univ output_mf : list Q) (x : Q) : Line2D :=
  let y := interp_membership univ output_mf x in
  mkLine2D [x; x] [0; if Qltb y 0.1 then 1 else y] "crisp value" 3
           (NamedColor "k").

(** The test of line 84: some term is cut and the aggregate curve is
    not all zeros. *)
Definition activated (var : FuzzyVariable Simulation) (sim : Simulation)
  : bool :=
  let (output_mf, cut_mfs) := find_memberships var sim in
  (0 <? Dict.len cut_mfs)%nat && negb (all_zero output_mf).

(** The marker lines (none or one) drawn for the crisp value [crisp]. *)
Definition marker_for (var : FuzzyVariable Simulation) (sim : Simulation)
           (crisp : option Q) : list Line2D :=
  if activated var sim then
    match crisp with
    | Some x => [marker (universe var) (fst (find_memberships var sim)) x]
    | None => []
    end
  else [].

(** The marker lines that [view] draws. *)
Definition marker_lines (var : FuzzyVariable Simulation) (sim : Simulation)
  : list Line2D :=
  marker_for var sim (crisp_value_of var sim).

(** The instance after [_init_plot] has returned, [lo] and [hi] being
    the bounds of the universe. *)
Definition after_init_plot (self : FuzzyVariableVisualizer) (lo hi : Q)
  : FuzzyVariableVisualizer :=
  let a := ax self in
  let cs := curves_of self in
  mkVisualizer (term self) (fuzzy_var self)
    (mkAxes (Some (0, 1.01)) (Some (lo, hi)) (lines a ++ cs)
            (collections a) (prop_cycle a + length cs)
            (Some "Membership") (Some (label (fuzzy_var self))))
    (cache_lines cs (plots self)).

(** The instance after [view] has returned. *)
Definition after_view (sim : option Simulation)
           (self : FuzzyVariableVisualizer) (lo hi : Q)
  : FuzzyVariableVisualizer :=
  let s := after_init_plot self lo hi in
  let a := ax s in
  let var := fuzzy_var self in
  let cut_mfs := snd (find_memberships var (sim_of sim)) in
  mkVisualizer (term self) var
    (mkAxes (ylim a) (xlim a)
            (lines a ++ marker_lines var (sim_of sim))
            (collections a ++ overlay_fills (universe var) cut_mfs (plots s))
            (prop_cycle a) (ylabel a) (xlabel a))
    (plots s).

(** What a call has added to the canvas: the lines and the fills of
    [after] that were not on [before]. *)
Definition new_lines (before after : Axes) : list Line2D :=
  skipn (length (lines before)) (lines after).

Definition new_fills (before after : Axes) : list PolyCollection :=
  skipn (length (collections before)) (collections after).

(** The derived values of a descriptor, its colour apart. *)
Definition line_geometry (l : Line2D) : list Q * list Q * string * Q :=
  (xdata l, ydata l, line_label l, linewidth l).

Definition fill_geometry (p : PolyCollection)
  : list Q * list Q * list Q * Q :=
  (fill_x p, fill_y1 p, fill_y2 p, alpha p).

(** The states an instance goes through: constructed by [__init__],
    then any number of [view] calls that returned. *)
Inductive reachable : FuzzyVariableVisualizer -> Prop :=
| reach_init (arg : Plottable) : reachable (__init__ arg)
| reach_view (self self' : FuzzyVariableVisualizer)
             (sim : option Simulation) (a : Axes) :
    reachable self ->
    view sim self = (Returned a, self') ->
    reachable self'.


End Visualization.

Arguments FuzzyVariableVisualizer : clear implicits.
Arguments Plottable : clear implicits.
Arguments M : clear implicits.

(** * A concrete package

    Collaborators and variables on which the methods can be run. *)

(** Modelled from the spec: [interp_membership] is defined in
    fuzzymath/fuzzy_ops.py, which is not among the sources.  The
    specification describes it as standard piecewise-linear
    interpolation of the curve [ys] over [xs] at [x0], clamped to the
    nearest endpoint outside the universe. *)
Fixpoint interpolate (xs ys : list Q) (x0 : Q) : Q :=
  match xs, ys with
  | x1 :: xs', y1 :: ys' =>
      if Qle_bool x0 x1 then y1
      else
        match xs', ys' with
        | x2 :: _, y2 :: _ =>
            if Qle_bool x0 x2
            then y1 + (x0 - x1) * (y2 - y1) / (x2 - x1)
            else interpolate xs' ys' x0
        | _, _ => y1
        end
  | _, _ => 0
  end.

(** A simulation, reduced to what this module reads from it: the
    memberships computed for the variable on display and the crisp
    value stored for it. *)
Record Run : Type := mkRun {
  run_output_mf : list Q;
  run_cut_mfs : Dict.t (list Q);
  run_value : option Q
}.

#[local] Instance package : Collaborators Run := {
  empty_simulation := mkRun [] [] None;
  find_memberships := fun _ r => (run_output_mf r, run_cut_mfs r);
  interp_membership := interpolate
}.

Definition universe5 : list Q := [0; 1; 2; 3; 4].

Definition term_A : Term := mkTerm "A" [1; 0.5; 0; 0; 0].
Definition term_B : Term := mkTerm "B" [0; 0.5; 1; 0.5; 0].
Definition term_C : Term := mkTerm "C" [0; 0; 0; 0.5; 1].

(** An input variable with the terms A, B, C. *)
Definition var_abc : FuzzyVariable Run :=
  mkFuzzyVariable universe5 "speed"
    [("A", term_A); ("B", term_B); ("C", term_C)]
    (Some run_value) None.

(** The same variable carrying an output store as well. *)
Definition var_both : FuzzyVariable Run :=
  mkFuzzyVariable universe5 "speed"
    [("A", term_A); ("B", term_B); ("C", term_C)]
    (Some run_value) (Some (fun _ => Some 4)).

(** An output variable and a variable with no role. *)
Definition var_out : FuzzyVariable Run :=
  mkFuzzyVariable universe5 "speed"
    [("A", term_A); ("B", term_B); ("C", term_C)]
    None (Some run_value).

Definition var_plain : FuzzyVariable Run :=
  mkFuzzyVariable universe5 "speed"
    [("A", term_A); ("B", term_B); ("C", term_C)]
    None None.

(** Aggregate curve below the visibility threshold at 2.5. *)
Definition run_low : Run :=
  mkRun [0; 0; 0.05; 0.05; 0] [("B", [0; 0; 0.05; 0.05; 0])] (Some 2.5).

(** Aggregate curve above the threshold at 2.5. *)
Definition run_high : Run :=
  mkRun [0; 0; 0.3; 0.3; 0] [("B", [0; 0; 0.3; 0.3; 0])] (Some 2.5).

(** A cut entry for A under an aggregate curve that is all zeros. *)
Definition run_zero : Run :=
  mkRun [0; 0; 0; 0; 0] [("A", [0; 0; 0; 0; 0])] None.

(** No value stored for the input, under an activated aggregate. *)
Definition run_no_value : Run :=
  mkRun [0; 0; 0.3; 0.3; 0] [("B", [0; 0; 0.3; 0.3; 0])] None.

(** Visualizers: of the variable, of its term B, and the first one
    after a call of [view]. *)
Definition vis_abc : FuzzyVariableVisualizer Run :=
  __init__ (OfVariable var_abc).

Definition vis_B : FuzzyVariableVisualizer Run :=
  __init__ (OfTerm term_B var_abc).

Definition vis_abc_viewed : FuzzyVariableVisualizer Run :=
  snd (view (Some run_high) vis_abc).

Definition vis_both : FuzzyVariableVisualizer Run :=
  __init__ (OfVariable var_both).

Definition vis_out : FuzzyVariableVisualizer Run :=
  __init__ (OfVariable var_out).

Definition vis_plain : FuzzyVariableVisualizer Run :=
  __init__ (OfVariable var_plain).

(** The cut curves of the labels [ks] that have one, in the order of
    [ks]. *)
Definition cuts_of (cut_mfs : Dict.t (list Q)) (ks : list string)
  : list (list Q) :=
  flat_map (fun k =>
              match Dict.get k cut_mfs with
              | Some cut => [cut]
              | None => []
              end) ks.

(** A variable whose universe is empty. *)
Definition var_empty : FuzzyVariable Run :=
  mkFuzzyVariable [] "speed" [("A", mkTerm "A" [])] (Some run_value) None.

Definition vis_empty : FuzzyVariableVisualizer Run :=
  __init__ (OfVariable var_empty).

(** A universe that is not sorted. *)
Definition var_unsorted : FuzzyVariable Run :=
  mkFuzzyVariable [2; 0; 4; 1; 3] "speed"
    [("A", mkTerm "A" [0; 1; 0; 0.5; 0])] (Some run_value) None.

Definition vis_unsorted : FuzzyVariableVisualizer Run :=
  __init__ (OfVariable var_unsorted).

(** The cut of B of [run_high] under an aggregate that is all zeros
    and with no crisp value. *)
Definition run_flat : Run :=
  mkRun [0; 0; 0; 0; 0] [("B", [0; 0; 0.3; 0.3; 0])] None.

(** Cuts for C and for A, named in this order. *)
Definition run_two : Run :=
  mkRun [1; 0.5; 0; 0.5; 1]
        [("C", [0; 0; 0; 0.5; 1]); ("A", [1; 0.5; 0; 0; 0])] (Some 1).

(** * Properties *)

Section DictFacts.

Context {V : Type}.
Implicit Types (d : Dict.t V) (k : string) (v : V).

Lemma get_In k d v : Dict.get k d = Some v -> In (k, v) d.
Proof.
  induction d as [|[k' v'] r IH]; simpl; [discriminate|].
  destruct (String.eqb_spec k k') as [->|_].
  - intros [= ->]. now left.
  - intros H. right. auto.
Qed.

Lemma get_None k d : Dict.get k d = None <-> ~ In k (Dict.keys d).
Proof.
  induction d as [|[k' v'] r IH]; simpl.
  - tauto.
  - destruct (String.eqb_spec k k') as [->|N].
    + split; [discriminate|]. intros H. elim H. now left.
    + rewrite IH. unfold Dict.keys. split.
      * intros H [E|I]; [congruence|auto].
      * intros H I. apply H. now right.
Qed.

Lemma get_set_same k v d : Dict.get k (Dict.set k v d) = Some v.
Proof.
  induction d as [|[k' v'] r IH]; simpl.
  - now rewrite String.eqb_refl.
  - destruct (String.eqb_spec k k') as [->|N]; simpl.
    + now rewrite String.eqb_refl.
    + destruct (String.eqb_spec k k'); [contradiction|assumption].
Qed.

Lemma get_set_other k k' v d :
  k <> k' -> Dict.get k (Dict.set k' v d) = Dict.get k d.
Proof.
  intros N. induction d as [|[k0 v0] r IH]; simpl.
  - destruct (String.eqb_spec k k'); [contradiction|reflexivity].
  - destruct (String.eqb_spec k' k0) as [->|N0]; simpl.
    + destruct (String.eqb_spec k k0); [contradiction|reflexivity].
    + now rewrite IH.
Qed.

(** Assigning to a key that is present keeps the order of the keys. *)
Lemma keys_set_present k v d :
  In k (Dict.keys d) -> Dict.keys (Dict.set k v d) = Dict.keys d.
Proof.
  unfold Dict.keys. induction d as [|[k' v'] r IH]; simpl; [tauto|].
  destruct (String.eqb_spec k k') as [->|N]; simpl; [reflexivity|].
  intros [E|I]; [congruence|]. now rewrite IH.
Qed.

(** Assigning to a key leaves it present, after the keys that were. *)
Lemma keys_set_incl k v d k' :
  In k' (Dict.keys (Dict.set k v d)) <-> k' = k \/ In k' (Dict.keys d).
Proof.
  unfold Dict.keys. induction d as [|[k0 v0] r IH]; simpl.
  - intuition congruence.
  - destruct (String.eqb_spec k k0) as [->|N]; simpl.
    + intuition congruence.
    + rewrite IH. intuition congruence.
Qed.

Lemma In_keys k v d : In (k, v) d -> In k (Dict.keys d).
Proof. intros H. apply (in_map fst) in H. exact H. Qed.


(** In a dictionary without repeated keys every entry is the one
    its key looks up. *)
Lemma In_get k v d : NoDup (Dict.keys d) -> In (k, v) d -> Dict.get k d = Some v.
Proof.
  unfold Dict.keys. induction d as [|[k0 v0] r IH]; simpl; [tauto|].
  intros ND. inversion ND as [|? ? NI ND']; subst.
  intros [[= -> ->]|I].
  - now rewrite String.eqb_refl.
  - destruct (String.eqb_spec k k0) as [->|N]; [|auto].
    elim NI. apply (In_keys _ _ _ I).
Qed.

End DictFacts.

Section Runs.

Context {Simulation : Type} {collab : Collaborators Simulation}.
Implicit Types (self : FuzzyVariableVisualizer Simulation).
Implicit Types (sim : option Simulation).

Ltac run :=
  unfold bind, ret, raise, get_self, on_ax_, on_ax, plots_set, reduce,
    plot, plot_color, fill_between, set_ylim, set_xlim, set_ylabel,
    set_xlabel; simpl.

(** The plotting loop of [_init_plot], from any state. *)
Lemma plot_loop (t : option string) (univ : list Q)
      (items : list (string * Term)) self :
  for_each items (fun kt =>
    bind (on_ax (plot univ (mf (snd kt)) (fst kt)
                      (if is_term t (fst kt) then 3 else 1)))
         (fun l => plots_set (fst kt) l)) self
  = (Returned tt,
     let cs := display_curves t univ (prop_cycle (ax self)) items in
     mkVisualizer (term self) (fuzzy_var self)
       (mkAxes (ylim (ax self)) (xlim (ax self)) (lines (ax self) ++ cs)
               (collections (ax self))
               (prop_cycle (ax self) + length cs)
               (ylabel (ax self)) (xlabel (ax self)))
       (cache_lines cs (plots self))).
Proof.
  revert self. induction items as [|kt r IH]; intros [t0 var a p].
  - simpl. unfold ret. rewrite app_nil_r, Nat.add_0_r. now destruct a.
  - simpl. run. rewrite IH. simpl.
    rewrite <- app_assoc, Nat.add_succ_r. reflexivity.
Qed.

(** The fill loop of [view], from any state. *)
Lemma fill_loop (univ : list Q) (cut_mfs : Dict.t (list Q))
      (d : Dict.t Line2D) self :
  for_each d (fun lp =>
    match Dict.get (fst lp) cut_mfs with
    | Some cut =>
        bind (on_ax (fill_between univ (zeros_like univ) cut
                                  (get_color (snd lp)) 0.4))
             (fun _ => ret tt)
    | None => ret tt
    end) self
  = (Returned tt,
     mkVisualizer (term self) (fuzzy_var self)
       (mkAxes (ylim (ax self)) (xlim (ax self)) (lines (ax self))
               (collections (ax self) ++ overlay_fills univ cut_mfs d)
               (prop_cycle (ax self))
               (ylabel (ax self)) (xlabel (ax self)))
       (plots self)).
Proof.
  revert self. induction d as [|lp r IH]; intros [t0 var a p].
  - simpl. unfold ret. rewrite app_nil_r. now destruct a.
  - simpl. unfold overlay_fill at 1.
    destruct (Dict.get (fst lp) cut_mfs) as [cut|]; run; rewrite IH; simpl.
    + now rewrite <- app_assoc.
    + reflexivity.
Qed.

(** [_init_plot] returns as soon as the universe is not empty. *)
Lemma init_plot_returns self :
  universe (fuzzy_var self) <> [] ->
  exists lo hi,
    array_min (universe (fuzzy_var self)) = Some lo /\
    array_max (universe (fuzzy_var self)) = Some hi /\
    _init_plot self = (Returned tt, after_init_plot self lo hi).
Proof.
  intros NE. destruct self as [t0 var a p]. simpl in *.
  destruct (universe var) as [|x r] eqn:U; [congruence|].
  exists (fold_left Qmin r x), (fold_left Qmax r x).
  split; [reflexivity|]. split; [reflexivity|].
  unfold _init_plot, Dict.items. cbn. rewrite U. cbn.
  unfold bind at 1. rewrite plot_loop. cbn.
  unfold after_init_plot, curves_of. simpl. rewrite U. reflexivity.
Qed.

(** On an empty universe it raises [ValueError], having set only the
    limits of the y axis. *)
Lemma init_plot_raises self :
  universe (fuzzy_var self) = [] ->
  _init_plot self
  = (Raised "ValueError",
     mkVisualizer (term self) (fuzzy_var self)
                  (set_ylim (0, 1.01) (ax self)) (plots self)).
Proof.
  intros E. unfold _init_plot. cbn. rewrite E. reflexivity.
Qed.

(** [view] returns its axes as soon as the universe is not empty. *)
Lemma view_returns sim self :
  universe (fuzzy_var self) <> [] ->
  exists lo hi,
    view sim self
    = (Returned (ax (after_view sim self lo hi)), after_view sim self lo hi).
Proof.
  intros NE. destruct (init_plot_returns self NE) as (lo & hi & _ & _ & I).
  exists lo, hi. unfold view. unfold bind at 1. rewrite I.
  unfold bind at 1, get_self at 1.
  change (fuzzy_var (after_init_plot self lo hi)) with (fuzzy_var self).
  unfold after_view, marker_lines, marker_for, activated.
  destruct (find_memberships (fuzzy_var self) (sim_of sim))
    as [output_mf cut_mfs].
  unfold bind at 1, Dict.items. rewrite fill_loop.
  cbv beta iota zeta. simpl snd. simpl fst.
  destruct ((0 <? Dict.len cut_mfs)%nat && negb (all_zero output_mf)).
  - destruct (crisp_value_of (fuzzy_var self) (sim_of sim)) as [x|].
    + run. reflexivity.
    + run. rewrite app_nil_r. reflexivity.
  - run. rewrite app_nil_r. reflexivity.
Qed.

(** On an empty universe [view] raises what [_init_plot] raised. *)
Lemma view_raises sim self :
  universe (fuzzy_var self) = [] ->
  view sim self
  = (Raised "ValueError",
     mkVisualizer (term self) (fuzzy_var self)
                  (set_ylim (0, 1.01) (ax self)) (plots self)).
Proof.
  intros E. unfold view, bind at 1. now rewrite init_plot_raises.
Qed.

End Runs.

Section Drawn.

Context {Simulation : Type} {collab : Collaborators Simulation}.
Implicit Types (self : FuzzyVariableVisualizer Simulation).
Implicit Types (sim : option Simulation).
Implicit Types (t : option string) (univ : list Q) (n : nat).
Implicit Types (items : list (string * Term)) (d : Dict.t Line2D).

Lemma skipn_length_app {A} (l r : list A) : skipn (length l) (l ++ r) = r.
Proof. induction l; simpl; auto. Qed.

Lemma display_curves_labels t univ n items :
  map line_label (display_curves t univ n items) = Dict.keys items.
Proof.
  unfold Dict.keys. revert n.
  induction items as [|kt r IH]; simpl; intros n; [|rewrite IH]; reflexivity.
Qed.

(** The derived values of the curves depend neither on the state of
    the colour cycle nor, the line width apart, on the term bolded. *)
Lemma display_curves_geometry t univ n m items :
  map line_geometry (display_curves t univ n items)
  = map line_geometry (display_curves t univ m items).
Proof.
  revert n m. induction items as [|kt r IH]; simpl; intros n m.
  - reflexivity.
  - f_equal. apply IH.
Qed.

Lemma display_curves_each t univ n items :
  Forall2 (fun kt l =>
             line_label l = fst kt /\ xdata l = univ /\
             ydata l = mf (snd kt) /\
             linewidth l = (if is_term t (fst kt) then 3 else 1))
          items (display_curves t univ n items).
Proof.
  revert n. induction items as [|kt r IH]; simpl; intros n; constructor.
  - simpl. auto.
  - apply IH.
Qed.

Lemma is_term_spec t k : is_term t k = true <-> t = Some k.
Proof.
  destruct t as [k'|]; simpl.
  - rewrite String.eqb_eq. split; congruence.
  - split; discriminate.
Qed.

(** *** The cache after a round of plotting *)

Lemma cache_keys (cs : list Line2D) d k :
  In k (Dict.keys (cache_lines cs d))
  <-> In k (map line_label cs) \/ In k (Dict.keys d).
Proof.
  revert d. induction cs as [|c r IH]; simpl; intros d.
  - tauto.
  - rewrite IH, keys_set_incl. intuition congruence.
Qed.

(** Plotting again labels that are cached keeps the order of the
    cache. *)
Lemma cache_keys_present (cs : list Line2D) d :
  incl (map line_label cs) (Dict.keys d) ->
  Dict.keys (cache_lines cs d) = Dict.keys d.
Proof.
  revert d. induction cs as [|c r IH]; simpl; intros d I.
  - reflexivity.
  - assert (Hc : In (line_label c) (Dict.keys d)) by (apply I; now left).
    rewrite IH.
    + now apply keys_set_present.
    + intros k Hk. rewrite keys_set_present by assumption.
      apply I. now right.
Qed.


Lemma cache_get_other (cs : list Line2D) d k :
  ~ In k (map line_label cs) ->
  Dict.get k (cache_lines cs d) = Dict.get k d.
Proof.
  revert d. induction cs as [|c r IH]; simpl; intros d N; [reflexivity|].
  rewrite IH by tauto. apply get_set_other. intros E. apply N. now left.
Qed.

(** A label plotted in this round looks up a line of this round. *)
Lemma cache_get (cs : list Line2D) d k :
  In k (map line_label cs) ->
  exists c,
    Dict.get k (cache_lines cs d) = Some c /\ In c cs /\ line_label c = k.
Proof.
  revert d. induction cs as [|c r IH]; simpl; intros d I; [contradiction|].
  destruct (in_dec string_dec k (map line_label r)) as [Y|N].
  - destruct (IH (Dict.set (line_label c) c d) Y) as (c' & G & Ic & E).
    exists c'. auto.
  - destruct I as [E|I]; [|contradiction].
    exists c. rewrite cache_get_other by assumption. subst k.
    rewrite get_set_same. auto.
Qed.

Lemma display_curves_In t univ n items l :
  In l (display_curves t univ n items) ->
  exists kt,
    In kt items /\ line_label l = fst kt /\ xdata l = univ /\
    ydata l = mf (snd kt).
Proof.
  revert n. induction items as [|kt r IH]; simpl; intros n; [contradiction|].
  intros [<-|I].
  - exists kt. simpl. auto.
  - destruct (IH _ I) as (kt' & H & E). exists kt'. auto.
Qed.

(** *** The fills *)

Lemma overlay_fills_In univ (cut_mfs : Dict.t (list Q)) d p :
  In p (overlay_fills univ cut_mfs d) <->
  exists k l cut,
    In (k, l) d /\ Dict.get k cut_mfs = Some cut /\
    p = mkPoly univ (zeros_like univ) cut (get_color l) 0.4.
Proof.
  unfold overlay_fills. rewrite in_flat_map. split.
  - intros [[k l] [I H]]. unfold overlay_fill in H. simpl in H.
    destruct (Dict.get k cut_mfs) as [cut|] eqn:G; [|contradiction].
    destruct H as [<-|[]]. now exists k, l, cut.
  - intros (k & l & cut & I & G & ->). exists (k, l). split; [assumption|].
    unfold overlay_fill. simpl. rewrite G. now left.
Qed.

Lemma overlay_fills_no_cut univ d : overlay_fills univ [] d = [].
Proof. induction d as [|lp r IH]; simpl; auto. Qed.

(** The derived values of the fills depend on the cache through the
    order of its labels only. *)
Lemma overlay_fills_geometry univ (cut_mfs : Dict.t (list Q)) d d' :
  Dict.keys d = Dict.keys d' ->
  map fill_geometry (overlay_fills univ cut_mfs d)
  = map fill_geometry (overlay_fills univ cut_mfs d').
Proof.
  unfold Dict.keys, overlay_fills. revert d'.
  induction d as [|[k l] r IH]; intros [|[k' l'] r']; simpl;
    try discriminate; [reflexivity|].
  intros [= <- E]. rewrite !map_app. f_equal; [|now apply IH].
  unfold overlay_fill. simpl. now destruct (Dict.get k cut_mfs).
Qed.

(** *** What [view] leaves behind *)

(** After a round of plotting, a term that has a cut has its fill,
    in the colour of the line cached for its label. *)
Lemma cached_term_filled self (cut_mfs : Dict.t (list Q))
      (k : string) (tm : Term) (cut : list Q) :
  In (k, tm) (terms (fuzzy_var self)) ->
  Dict.get k cut_mfs = Some cut ->
  exists l,
    Dict.get k (cache_lines (curves_of self) (plots self)) = Some l /\
    In (mkPoly (universe (fuzzy_var self))
               (zeros_like (universe (fuzzy_var self)))
               cut (get_color l) 0.4)
       (overlay_fills (universe (fuzzy_var self)) cut_mfs
                      (cache_lines (curves_of self) (plots self))).
Proof.
  intros I G.
  destruct (Dict.get k (cache_lines (curves_of self) (plots self)))
    as [l|] eqn:GP.
  - exists l. split; [reflexivity|].
    apply overlay_fills_In. exists k, l, cut.
    split; [now apply get_In|]. split; [exact G|reflexivity].
  - exfalso. apply get_None in GP. apply GP.
    apply cache_keys. left. unfold curves_of.
    rewrite display_curves_labels. apply (In_keys _ _ _ I).
Qed.

Lemma view_drawn sim self :
  universe (fuzzy_var self) <> [] ->
  exists a self',
    view sim self = (Returned a, self') /\
    ax self' = a /\
    term self' = term self /\
    fuzzy_var self' = fuzzy_var self /\
    plots self' = cache_lines (curves_of self) (plots self) /\
    new_lines (ax self) a
    = curves_of self ++ marker_lines (fuzzy_var self) (sim_of sim) /\
    new_fills (ax self) a
    = overlay_fills (universe (fuzzy_var self))
                    (snd (find_memberships (fuzzy_var self) (sim_of sim)))
                    (plots self').
Proof.
  intros NE. destruct (view_returns sim self NE) as (lo & hi & V).
  exists (ax (after_view sim self lo hi)), (after_view sim self lo hi).
  split; [exact V|]. unfold new_lines, new_fills. simpl.
  repeat split.
  - rewrite <- app_assoc. apply skipn_length_app.
  - apply skipn_length_app.
Qed.

(** A call only adds to the canvas: what was drawn stays, in place. *)
Lemma view_extends sim self a self' :
  view sim self = (Returned a, self') ->
  lines a = lines (ax self) ++ new_lines (ax self) a /\
  collections a = collections (ax self) ++ new_fills (ax self) a.
Proof.
  intros V. destruct (universe (fuzzy_var self)) as [|x r] eqn:U.
  - rewrite view_raises in V by assumption. discriminate.
  - destruct (view_returns sim self) as (lo & hi & V'); [congruence|].
    rewrite V in V'. injection V' as -> _.
    unfold new_lines, new_fills. simpl.
    rewrite <- !app_assoc, !skipn_length_app. auto.
Qed.

Lemma init_plot_drawn self :
  universe (fuzzy_var self) <> [] ->
  exists self',
    _init_plot self = (Returned tt, self') /\
    term self' = term self /\
    fuzzy_var self' = fuzzy_var self /\
    plots self' = cache_lines (curves_of self) (plots self) /\
    new_lines (ax self) (ax self') = curves_of self /\
    new_fills (ax self) (ax self') = [].
Proof.
  intros NE. destruct (init_plot_returns self NE) as (lo & hi & _ & _ & I).
  exists (after_init_plot self lo hi). split; [exact I|].
  unfold new_lines, new_fills. simpl. repeat split.
  - apply skipn_length_app.
  - rewrite <- (app_nil_r (collections (ax self))) at 2.
    apply skipn_length_app.
Qed.

(** *** The cache of a reachable instance *)


End Drawn.

Section Claims.

Context {Simulation : Type} {collab : Collaborators Simulation}.
Implicit Types (self : FuzzyVariableVisualizer Simulation).
Implicit Types (sim : option Simulation).
Implicit Types (output_mf : list Q) (cut_mfs : Dict.t (list Q)).

Lemma Qltb_lt (x y : Q) : Qltb x y = true <-> x < y.
Proof.
  unfold Qltb. rewrite negb_true_iff, <- not_true_iff_false, Qle_bool_iff.
  split; [apply Qnot_le_lt|apply Qlt_not_le].
Qed.

Lemma Qltb_ge (x y : Q) : Qltb x y = false <-> y <= x.
Proof.
  unfold Qltb. now rewrite negb_false_iff, Qle_bool_iff.
Qed.

(** The marker lines, case by case. *)
Lemma marker_for_closed (var : FuzzyVariable Simulation) (s : Simulation)
      output_mf cut_mfs crisp :
  find_memberships var s = (output_mf, cut_mfs) ->
  (cut_mfs = [] \/ all_zero output_mf = true \/ crisp = None ->
   marker_for var s crisp = []) /\
  (forall x, cut_mfs <> [] -> all_zero output_mf = false -> crisp = Some x ->
   marker_for var s crisp = [marker (universe var) output_mf x]).
Proof.
  intros FM. unfold marker_for, activated. rewrite FM. simpl. split.
  - intros [->|[->| ->]].
    + reflexivity.
    + now rewrite andb_false_r.
    + now destruct (_ && _).
  - intros x NE NZ ->. rewrite NZ.
    destruct cut_mfs; [congruence|reflexivity].
Qed.

(** C5.  For a variable over a non-empty universe, [_init_plot]
    returns having drawn no fill and exactly one curve per entry of
    the term set, in the order of the term set: the curve carries the
    entry's label, the universe as its x data and the term's
    membership curve as its y data, and is bold (width 3, against 1)
    exactly when its label is the label the visualizer was built for.
    Built for any other label or for none, the visualizer draws the
    same curves: same data, same labels, same colours. *)
Theorem init_plot_one_curve_per_term self :
  universe (fuzzy_var self) <> [] ->
  exists self',
    _init_plot self = (Returned tt, self') /\
    new_fills (ax self) (ax self') = [] /\
    Forall2 (fun kt l =>
               line_label l = fst kt /\
               xdata l = universe (fuzzy_var self) /\
               ydata l = mf (snd kt) /\
               (term self = Some (fst kt) -> linewidth l = 3) /\
               (term self <> Some (fst kt) -> linewidth l = 1))
            (Dict.items (terms (fuzzy_var self)))
            (new_lines (ax self) (ax self')) /\
    forall highlighted : option string,
    exists other,
      _init_plot (mkVisualizer highlighted (fuzzy_var self) (ax self)
                               (plots self))
      = (Returned tt, other) /\
      Forall2 (fun l l' =>
                 xdata l' = xdata l /\ ydata l' = ydata l /\
                 line_label l' = line_label l /\
                 line_color l' = line_color l)
              (new_lines (ax self) (ax self'))
              (new_lines (ax self) (ax other)).
Proof.
  intros NE.
  destruct (init_plot_drawn self NE) as (s' & I & _ & _ & _ & L & F).
  exists s'. repeat split; try assumption.
  - rewrite L. unfold curves_of, Dict.items.
    eapply Forall2_impl; [|apply display_curves_each].
    intros kt l (E1 & E2 & E3 & E4). repeat split; try assumption.
    + intros T. apply is_term_spec in T. now rewrite E4, T.
    + intros T. rewrite E4.
      destruct (is_term (term self) (fst kt)) eqn:B; [|reflexivity].
      apply is_term_spec in B. contradiction.
  - intros h.
    destruct (init_plot_drawn (mkVisualizer h (fuzzy_var self) (ax self)
                                            (plots self)) NE)
      as (o & I' & _ & _ & _ & L' & _).
    exists o. split; [exact I'|]. simpl in L'. rewrite L, L'.
    unfold curves_of. simpl. generalize (prop_cycle (ax self)).
    induction (terms (fuzzy_var self)) as [|kt r IH]; simpl; intros n;
      constructor; simpl; auto.
Qed.


(** C1, as the code has it.  Over a non-empty universe [view]
    returns.  If the cut mapping is empty it has drawn the display
    curves and nothing else: no fill, no marker.  If the aggregate
    curve is all zeros it has drawn no marker, and the aggregate does
    not hold back the fills: every term of the variable that has a
    cut has its fill, and the fills are those of the cached labels
    that have a cut. *)
Theorem view_without_activation sim self output_mf cut_mfs :
  universe (fuzzy_var self) <> [] ->
  find_memberships (fuzzy_var self) (sim_of sim) = (output_mf, cut_mfs) ->
  exists a self',
    view sim self = (Returned a, self') /\
    (cut_mfs = [] ->
     new_fills (ax self) a = [] /\ new_lines (ax self) a = curves_of self) /\
    (all_zero output_mf = true ->
     new_lines (ax self) a = curves_of self /\
     new_fills (ax self) a
     = overlay_fills (universe (fuzzy_var self)) cut_mfs (plots self') /\
     forall k t cut,
       In (k, t) (terms (fuzzy_var self)) ->
       Dict.get k cut_mfs = Some cut ->
       exists l,
         Dict.get k (plots self') = Some l /\
         In (mkPoly (universe (fuzzy_var self))
                    (zeros_like (universe (fuzzy_var self)))
                    cut (get_color l) 0.4)
            (new_fills (ax self) a)).
Proof.
  intros NE FM.
  destruct (view_drawn sim self NE) as (a & s' & V & _ & _ & _ & P & L & F).
  rewrite FM in F. simpl in F.
  destruct (marker_for_closed _ _ _ _
              (crisp_value_of (fuzzy_var self) (sim_of sim)) FM) as [M0 _].
  unfold marker_lines in L.
  exists a, s'. split; [exact V|]. split.
  - intros E. rewrite M0, app_nil_r in L by auto. split; [|exact L].
    rewrite F, E. apply overlay_fills_no_cut.
  - intros Z. rewrite M0, app_nil_r in L by auto.
    split; [exact L|]. split; [exact F|].
    intros k t cut I G. rewrite F, P.
    now apply cached_term_filled with (tm := t).
Qed.

(** C4.  When the universe is not empty, some term is cut, the
    aggregate curve is not all zeros and the crisp value is [x],
    [view] returns having drawn, after the display curves, one marker
    whose x data is [x] twice; with [y] the height interpolated on the
    aggregate curve at [x], its y data runs from 0 to 1 if [y < 0.1]
    and from 0 to [y] itself if [0.1 <= y]. *)
Theorem view_marker_visibility_floor sim self output_mf cut_mfs (x : Q) :
  universe (fuzzy_var self) <> [] ->
  find_memberships (fuzzy_var self) (sim_of sim) = (output_mf, cut_mfs) ->
  cut_mfs <> [] ->
  all_zero output_mf = false ->
  crisp_value_of (fuzzy_var self) (sim_of sim) = Some x ->
  exists a self' m,
    view sim self = (Returned a, self') /\
    new_lines (ax self) a = curves_of self ++ [m] /\
    xdata m = [x; x] /\
    line_color m = NamedColor "k" /\
    let y := interp_membership (universe (fuzzy_var self)) output_mf x in
    (y < 0.1 -> ydata m = [0; 1]) /\
    (0.1 <= y -> ydata m = [0; y]).
Proof.
  intros NE FM NC NZ CV.
  destruct (view_drawn sim self NE) as (a & s' & V & _ & _ & _ & _ & L & _).
  destruct (marker_for_closed _ _ _ _
              (crisp_value_of (fuzzy_var self) (sim_of sim)) FM) as [_ M1].
  unfold marker_lines in L. rewrite (M1 x NC NZ CV) in L.
  exists a, s', (marker (universe (fuzzy_var self)) output_mf x).
  split; [exact V|]. split; [exact L|]. unfold marker. simpl.
  repeat split.
  - intros Y. apply Qltb_lt in Y. now rewrite Y.
  - intros Y. apply Qltb_ge in Y. now rewrite Y.
Qed.

(** C6.  The crisp value is found by role: a variable with an
    [input] store has the value that store holds for the simulation;
    a variable without one and with an [output] store has the value
    that store holds; a variable with neither has none.  Over a
    non-empty universe [view] returns, and the lines it has drawn
    after the display curves are the marker lines for that value; for
    a variable with neither store it has drawn no marker. *)
Theorem view_crisp_value_by_role sim self :
  universe (fuzzy_var self) <> [] ->
  exists a self',
    view sim self = (Returned a, self') /\
    (forall inp,
       input (fuzzy_var self) = Some inp ->
       crisp_value_of (fuzzy_var self) (sim_of sim) = inp (sim_of sim) /\
       new_lines (ax self) a
       = curves_of self
         ++ marker_for (fuzzy_var self) (sim_of sim) (inp (sim_of sim))) /\
    (forall out,
       input (fuzzy_var self) = None ->
       output (fuzzy_var self) = Some out ->
       crisp_value_of (fuzzy_var self) (sim_of sim) = out (sim_of sim) /\
       new_lines (ax self) a
       = curves_of self
         ++ marker_for (fuzzy_var self) (sim_of sim) (out (sim_of sim))) /\
    (input (fuzzy_var self) = None ->
     output (fuzzy_var self) = None ->
     crisp_value_of (fuzzy_var self) (sim_of sim) = None /\
     new_lines (ax self) a = curves_of self).
Proof.
  intros NE.
  destruct (view_drawn sim self NE) as (a & s' & V & _ & _ & _ & _ & L & _).
  exists a, s'. split; [exact V|].
  unfold marker_lines in L. unfold crisp_value_of in *.
  split; [|split].
  - intros inp I. rewrite I in L. rewrite I. auto.
  - intros out I O. rewrite I, O in L. rewrite I, O. auto.
  - intros I O. rewrite I, O in L. rewrite I, O. split; [reflexivity|].
    rewrite L. unfold marker_for.
    destruct (activated _ _); apply app_nil_r.
Qed.

(** C10.  For a variable that has both an [input] and an [output]
    store, the crisp value is the one its [input] store holds for the
    simulation, and the marker [view] draws is the marker for that
    value; if the [input] store holds none, no marker is drawn,
    whatever the [output] store holds. *)
Theorem view_input_precedes_output sim self
        (inp out : Simulation -> option Q) :
  universe (fuzzy_var self) <> [] ->
  input (fuzzy_var self) = Some inp ->
  output (fuzzy_var self) = Some out ->
  crisp_value_of (fuzzy_var self) (sim_of sim) = inp (sim_of sim) /\
  exists a self',
    view sim self = (Returned a, self') /\
    new_lines (ax self) a
    = curves_of self
      ++ marker_for (fuzzy_var self) (sim_of sim) (inp (sim_of sim)) /\
    (inp (sim_of sim) = None -> new_lines (ax self) a = curves_of self).
Proof.
  intros NE I O.
  assert (C : crisp_value_of (fuzzy_var self) (sim_of sim) = inp (sim_of sim)).
  { unfold crisp_value_of. now rewrite I. }
  split; [exact C|].
  destruct (view_drawn sim self NE) as (a & s' & V & _ & _ & _ & _ & L & _).
  exists a, s'. split; [exact V|].
  unfold marker_lines in L. rewrite C in L. split; [exact L|].
  intros N. rewrite L, N. unfold marker_for.
  destruct (activated _ _); apply app_nil_r.
Qed.

(** With cut labels among the term labels, a call that draws no fill
    has an empty cut mapping. *)
Lemma no_fill_no_cut self cut_mfs :
  incl (Dict.keys cut_mfs) (Dict.keys (terms (fuzzy_var self))) ->
  overlay_fills (universe (fuzzy_var self)) cut_mfs
                (cache_lines (curves_of self) (plots self)) = [] ->
  cut_mfs = [].
Proof.
  intros I E. destruct cut_mfs as [|[k cut] r]; [reflexivity|]. exfalso.
  assert (Hk : In k (Dict.keys (terms (fuzzy_var self))))
    by (apply I; now left).
  apply (in_map_iff fst) in Hk. destruct Hk as ([k' t] & Ek & Hk).
  simpl in Ek. subst k'.
  destruct (cached_term_filled self ((k, cut) :: r) k t cut Hk)
    as (l & _ & X).
  - simpl. now rewrite String.eqb_refl.
  - rewrite E in X. contradiction.
Qed.

(** C7.  [view] obtains the cut mapping from its own variable, so
    the labels of the cut mapping are among the labels of the term
    set.  Over a non-empty universe it then returns, and: a marker is
    drawn only when there is a crisp value and at least one fill has
    been drawn, and it is the marker of that value; when there is no
    crisp value, or no fill has been drawn, no marker is drawn; and
    with a crisp value, a fill and an aggregate curve that is not all
    zeros the marker is drawn. *)
Theorem view_marker_needs_fill sim self output_mf cut_mfs :
  universe (fuzzy_var self) <> [] ->
  find_memberships (fuzzy_var self) (sim_of sim) = (output_mf, cut_mfs) ->
  incl (Dict.keys cut_mfs) (Dict.keys (terms (fuzzy_var self))) ->
  exists a self',
    view sim self = (Returned a, self') /\
    (forall m,
       new_lines (ax self) a = curves_of self ++ [m] ->
       (exists x,
          crisp_value_of (fuzzy_var self) (sim_of sim) = Some x /\
          m = marker (universe (fuzzy_var self)) output_mf x) /\
       new_fills (ax self) a <> []) /\
    (crisp_value_of (fuzzy_var self) (sim_of sim) = None \/
     new_fills (ax self) a = [] ->
     new_lines (ax self) a = curves_of self) /\
    (forall x,
       crisp_value_of (fuzzy_var self) (sim_of sim) = Some x ->
       new_fills (ax self) a <> [] ->
       all_zero output_mf = false ->
       new_lines (ax self) a
       = curves_of self ++ [marker (universe (fuzzy_var self)) output_mf x]).
Proof.
  intros NE FM IN.
  destruct (view_drawn sim self NE) as (a & s' & V & _ & _ & _ & P & L & F).
  rewrite FM in F. simpl in F. rewrite P in F.
  destruct (marker_for_closed _ _ _ _
              (crisp_value_of (fuzzy_var self) (sim_of sim)) FM) as [M0 M1].
  unfold marker_lines in L.
  assert (C : new_fills (ax self) a = [] -> cut_mfs = []).
  { intros E. rewrite F in E. now apply no_fill_no_cut in E. }
  assert (N : crisp_value_of (fuzzy_var self) (sim_of sim) = None \/
              cut_mfs = [] \/ all_zero output_mf = true ->
              new_lines (ax self) a = curves_of self).
  { intros H. rewrite M0, app_nil_r in L by tauto. exact L. }
  exists a, s'. split; [exact V|]. split; [|split].
  - intros m E.
    assert (X : new_lines (ax self) a <> curves_of self).
    { rewrite E. intros Y. rewrite <- (app_nil_r (curves_of self)) in Y at 2.
      apply app_inv_head in Y. discriminate. }
    destruct (crisp_value_of (fuzzy_var self) (sim_of sim)) as [x|] eqn:CV;
      [|elim X; apply N; now left].
    destruct (all_zero output_mf) eqn:NZ; [elim X; apply N; tauto|].
    assert (NC : cut_mfs <> []) by (intros Y; apply X, N; tauto).
    rewrite (M1 x NC eq_refl eq_refl), E in L. apply app_inv_head in L.
    injection L as ->. split; [now exists x|].
    intros Y. apply NC, C, Y.
  - intros [H|H]; apply N; [now left|right; left; now apply C].
  - intros x CV NF NZ. rewrite (M1 x) in L; auto.
    intros Y. apply NF. rewrite F, Y. apply overlay_fills_no_cut.
Qed.


(** C9, as the code has it.  Over a non-empty universe, two [view]
    calls in a row on one instance with the same simulation both
    return.  The axes are shared and keep what was drawn: the second
    call adds its lines and fills after those of the first.  What it
    adds has the derived values of what the first call added: the
    same lines (display curves and marker) and the same fills, in the
    same order, with the same data, labels, widths and opacity.
    Colours are not compared: each call draws its curves in the next
    colours of the cycle. *)
Theorem view_twice_same_descriptors sim self :
  universe (fuzzy_var self) <> [] ->
  exists a1 self1 a2 self2,
    view sim self = (Returned a1, self1) /\
    view sim self1 = (Returned a2, self2) /\
    lines a2 = lines a1 ++ new_lines a1 a2 /\
    collections a2 = collections a1 ++ new_fills a1 a2 /\
    map line_geometry (new_lines a1 a2)
    = map line_geometry (new_lines (ax self) a1) /\
    map fill_geometry (new_fills a1 a2)
    = map fill_geometry (new_fills (ax self) a1).
Proof.
  intros NE.
  destruct (view_drawn sim self NE)
    as (a1 & s1 & V1 & A1 & T1 & F1 & P1 & L1 & C1).
  assert (NE1 : universe (fuzzy_var s1) <> []) by now rewrite F1.
  destruct (view_drawn sim s1 NE1)
    as (a2 & s2 & V2 & _ & _ & _ & P2 & L2 & C2).
  destruct (view_extends _ _ _ _ V2) as [X1 X2]. rewrite A1 in *.
  exists a1, s1, a2, s2. repeat (split; [assumption|]). split.
  - rewrite L1, L2, F1, !map_app. f_equal.
    unfold curves_of. rewrite T1, F1. apply display_curves_geometry.
  - rewrite C1, C2, F1. apply overlay_fills_geometry.
    rewrite P2. apply cache_keys_present.
    intros k Hk. rewrite P1. apply cache_keys. left.
    unfold curves_of in *.
    rewrite display_curves_labels in *. now rewrite <- F1.
Qed.

End Claims.

(** * The properties on the concrete package *)

(** The visualizer of term B draws A, B and C in this order, B alone
    in bold. *)
Lemma init_plot_one_curve_per_term_witness :
  universe (fuzzy_var vis_B) <> [] /\
  exists self',
    _init_plot vis_B = (Returned tt, self') /\
    new_fills (ax vis_B) (ax self') = [] /\
    Forall2 (fun kt l =>
               line_label l = fst kt /\
               xdata l = universe5 /\
               ydata l = mf (snd kt) /\
               (Some "B" = Some (fst kt) -> linewidth l = 3) /\
               (Some "B" <> Some (fst kt) -> linewidth l = 1))
            [("A", term_A); ("B", term_B); ("C", term_C)]
            (new_lines (ax vis_B) (ax self')).
Proof.
  assert (NE : universe (fuzzy_var vis_B) <> []) by discriminate.
  split; [exact NE|].
  destruct (init_plot_one_curve_per_term vis_B NE) as (s' & I & F & C & _).
  exists s'. auto.
Defined.


(** C1 does not hold as stated: with a cut for A under an aggregate
    curve that is all zeros, [view] draws the fill of A. *)
Lemma view_zero_aggregate_still_fills :
  all_zero (run_output_mf run_zero) = true /\
  exists a self',
    view (Some run_zero) vis_abc = (Returned a, self') /\
    new_fills (ax vis_abc) a
    = [mkPoly universe5 [0; 0; 0; 0; 0] [0; 0; 0; 0; 0] (CycleColor 0) 0.4].
Proof.
  split; [reflexivity|]. do 2 eexists. split; vm_compute; reflexivity.
Qed.

(** Without a simulation nothing but the curves is drawn; under the
    all-zero aggregate no marker is drawn and A has its fill. *)
Lemma view_without_activation_witness :
  universe (fuzzy_var vis_abc) <> [] /\
  find_memberships (fuzzy_var vis_abc) (sim_of None) = ([], []) /\
  find_memberships (fuzzy_var vis_abc) (sim_of (Some run_zero))
  = ([0; 0; 0; 0; 0], [("A", [0; 0; 0; 0; 0])]) /\
  (exists a self',
     view None vis_abc = (Returned a, self') /\
     new_fills (ax vis_abc) a = [] /\
     new_lines (ax vis_abc) a = curves_of vis_abc) /\
  (exists a self',
     view (Some run_zero) vis_abc = (Returned a, self') /\
     new_lines (ax vis_abc) a = curves_of vis_abc /\
     exists l,
       Dict.get "A" (plots self') = Some l /\
       In (mkPoly universe5 (zeros_like universe5) [0; 0; 0; 0; 0]
                  (get_color l) 0.4)
          (new_fills (ax vis_abc) a)).
Proof.
  assert (NE : universe (fuzzy_var vis_abc) <> []) by discriminate.
  assert (F0 : find_memberships (fuzzy_var vis_abc) (sim_of None)
               = ([], [])) by reflexivity.
  assert (F1 : find_memberships (fuzzy_var vis_abc) (sim_of (Some run_zero))
               = ([0; 0; 0; 0; 0], [("A", [0; 0; 0; 0; 0])]))
    by reflexivity.
  split; [exact NE|]. split; [exact F0|]. split; [exact F1|]. split.
  - destruct (view_without_activation None vis_abc _ _ NE F0)
      as (a & s' & V & E & _).
    exists a, s'. split; [exact V|]. now apply E.
  - destruct (view_without_activation (Some run_zero) vis_abc _ _ NE F1)
      as (a & s' & V & _ & Z).
    destruct (Z eq_refl) as (L & _ & K).
    exists a, s'. split; [exact V|]. split; [exact L|].
    apply (K "A" term_A); [simpl; auto|reflexivity].
Defined.

(** The two examples of the specification: a height of 0.05 at 2.5 is
    raised to 1, a height of 0.3 at 2.5 is kept. *)
Lemma view_marker_visibility_floor_witness :
  (universe (fuzzy_var vis_abc) <> [] /\
   find_memberships (fuzzy_var vis_abc) (sim_of (Some run_low))
   = ([0; 0; 0.05; 0.05; 0], [("B", [0; 0; 0.05; 0.05; 0])]) /\
   [("B", [0; 0; 0.05; 0.05; 0])] <> [] /\
   all_zero [0; 0; 0.05; 0.05; 0] = false /\
   crisp_value_of (fuzzy_var vis_abc) (sim_of (Some run_low)) = Some 2.5 /\
   interpolate universe5 [0; 0; 0.05; 0.05; 0] 2.5 == 0.05 /\
   exists a self' m,
     view (Some run_low) vis_abc = (Returned a, self') /\
     new_lines (ax vis_abc) a = curves_of vis_abc ++ [m] /\
     xdata m = [2.5; 2.5] /\
     ydata m = [0; 1]) /\
  (find_memberships (fuzzy_var vis_abc) (sim_of (Some run_high))
   = ([0; 0; 0.3; 0.3; 0], [("B", [0; 0; 0.3; 0.3; 0])]) /\
   [("B", [0; 0; 0.3; 0.3; 0])] <> [] /\
   all_zero [0; 0; 0.3; 0.3; 0] = false /\
   crisp_value_of (fuzzy_var vis_abc) (sim_of (Some run_high)) = Some 2.5 /\
   interpolate universe5 [0; 0; 0.3; 0.3; 0] 2.5 == 0.3 /\
   exists a self' m,
     view (Some run_high) vis_abc = (Returned a, self') /\
     new_lines (ax vis_abc) a = curves_of vis_abc ++ [m] /\
     xdata m = [2.5; 2.5] /\
     ydata m = [0; interpolate universe5 [0; 0; 0.3; 0.3; 0] 2.5]).
Proof.
  assert (NE : universe (fuzzy_var vis_abc) <> []) by discriminate.
  split.
  - assert (FM : find_memberships (fuzzy_var vis_abc) (sim_of (Some run_low))
                 = ([0; 0; 0.05; 0.05; 0], [("B", [0; 0; 0.05; 0.05; 0])]))
      by reflexivity.
    assert (NC : [("B", [0; 0; 0.05; 0.05; 0])] <> []) by discriminate.
    assert (NZ : all_zero [0; 0; 0.05; 0.05; 0] = false) by reflexivity.
    assert (CV : crisp_value_of (fuzzy_var vis_abc) (sim_of (Some run_low))
                 = Some 2.5) by reflexivity.
    repeat (split; [assumption || reflexivity|]).
    destruct (view_marker_visibility_floor (Some run_low) vis_abc _ _ 2.5
                NE FM NC NZ CV) as (a & s' & m & V & L & X & _ & Lo & _).
    exists a, s', m. repeat (split; [assumption|]).
    apply Lo. reflexivity.
  - assert (FM : find_memberships (fuzzy_var vis_abc) (sim_of (Some run_high))
                 = ([0; 0; 0.3; 0.3; 0], [("B", [0; 0; 0.3; 0.3; 0])]))
      by reflexivity.
    assert (NC : [("B", [0; 0; 0.3; 0.3; 0])] <> []) by discriminate.
    assert (NZ : all_zero [0; 0; 0.3; 0.3; 0] = false) by reflexivity.
    assert (CV : crisp_value_of (fuzzy_var vis_abc) (sim_of (Some run_high))
                 = Some 2.5) by reflexivity.
    repeat (split; [assumption || reflexivity|]).
    destruct (view_marker_visibility_floor (Some run_high) vis_abc _ _ 2.5
                NE FM NC NZ CV) as (a & s' & m & V & L & X & _ & _ & Hi).
    exists a, s', m. repeat (split; [assumption|]).
    apply Hi. discriminate.
Defined.

(** An input variable and an output variable both holding 2.5, and a
    variable with no role. *)
Lemma view_crisp_value_by_role_witness :
  universe (fuzzy_var vis_abc) <> [] /\
  universe (fuzzy_var vis_out) <> [] /\
  universe (fuzzy_var vis_plain) <> [] /\
  (exists a self',
     view (Some run_high) vis_abc = (Returned a, self') /\
     new_lines (ax vis_abc) a
     = curves_of vis_abc
       ++ marker_for var_abc run_high (Some 2.5)) /\
  (exists a self',
     view (Some run_high) vis_out = (Returned a, self') /\
     new_lines (ax vis_out) a
     = curves_of vis_out
       ++ marker_for var_out run_high (Some 2.5)) /\
  (exists a self',
     view (Some run_high) vis_plain = (Returned a, self') /\
     new_lines (ax vis_plain) a = curves_of vis_plain).
Proof.
  assert (NE1 : universe (fuzzy_var vis_abc) <> []) by discriminate.
  assert (NE2 : universe (fuzzy_var vis_out) <> []) by discriminate.
  assert (NE3 : universe (fuzzy_var vis_plain) <> []) by discriminate.
  repeat (split; [assumption|]). split; [|split].
  - destruct (view_crisp_value_by_role (Some run_high) vis_abc NE1)
      as (a & s' & V & I & _).
    exists a, s'. split; [exact V|]. apply (I run_value). reflexivity.
  - destruct (view_crisp_value_by_role (Some run_high) vis_out NE2)
      as (a & s' & V & _ & O & _).
    exists a, s'. split; [exact V|]. apply (O run_value); reflexivity.
  - destruct (view_crisp_value_by_role (Some run_high) vis_plain NE3)
      as (a & s' & V & _ & _ & N).
    exists a, s'. split; [exact V|]. apply N; reflexivity.
Defined.

(** The input store holds nothing and the output store holds 4: no
    marker is drawn. *)
Lemma view_input_precedes_output_witness :
  universe (fuzzy_var vis_both) <> [] /\
  input (fuzzy_var vis_both) = Some run_value /\
  output (fuzzy_var vis_both) = Some (fun _ => Some 4) /\
  crisp_value_of var_both run_no_value = None /\
  exists a self',
    view (Some run_no_value) vis_both = (Returned a, self') /\
    new_lines (ax vis_both) a = curves_of vis_both.
Proof.
  assert (NE : universe (fuzzy_var vis_both) <> []) by discriminate.
  split; [exact NE|]. split; [reflexivity|]. split; [reflexivity|].
  destruct (view_input_precedes_output (Some run_no_value) vis_both
              run_value (fun _ => Some 4) NE eq_refl eq_refl)
    as (C & a & s' & V & _ & N).
  split; [exact C|]. exists a, s'. split; [exact V|]. now apply N.
Defined.

(** A cut for B, a crisp value of 2.5 and an aggregate that is not
    all zeros: the fill of B and the marker are drawn.  The same cut
    with no crisp value: no marker. *)
Lemma view_marker_needs_fill_witness :
  universe (fuzzy_var vis_abc) <> [] /\
  find_memberships (fuzzy_var vis_abc) (sim_of (Some run_high))
  = (run_output_mf run_high, run_cut_mfs run_high) /\
  incl (Dict.keys (run_cut_mfs run_high))
       (Dict.keys (terms (fuzzy_var vis_abc))) /\
  crisp_value_of (fuzzy_var vis_abc) (sim_of (Some run_high)) = Some 2.5 /\
  crisp_value_of (fuzzy_var vis_abc) (sim_of (Some run_no_value)) = None /\
  (exists a self',
     view (Some run_high) vis_abc = (Returned a, self') /\
     new_fills (ax vis_abc) a <> [] /\
     new_lines (ax vis_abc) a
     = curves_of vis_abc
       ++ [marker universe5 (run_output_mf run_high) 2.5]) /\
  (exists a self',
     view (Some run_no_value) vis_abc = (Returned a, self') /\
     new_lines (ax vis_abc) a = curves_of vis_abc).
Proof.
  assert (NE : universe (fuzzy_var vis_abc) <> []) by discriminate.
  assert (FM : find_memberships (fuzzy_var vis_abc) (sim_of (Some run_high))
               = (run_output_mf run_high, run_cut_mfs run_high))
    by reflexivity.
  assert (FN : find_memberships (fuzzy_var vis_abc)
                                (sim_of (Some run_no_value))
               = (run_output_mf run_no_value, run_cut_mfs run_no_value))
    by reflexivity.
  assert (IN : incl (Dict.keys (run_cut_mfs run_high))
                    (Dict.keys (terms (fuzzy_var vis_abc)))).
  { intros k [<-|[]]. simpl. auto. }
  assert (CV : crisp_value_of (fuzzy_var vis_abc) (sim_of (Some run_high))
               = Some 2.5) by reflexivity.
  assert (CN : crisp_value_of (fuzzy_var vis_abc)
                              (sim_of (Some run_no_value)) = None)
    by reflexivity.
  repeat (split; [assumption|]). split.
  - destruct (view_marker_needs_fill (Some run_high) vis_abc _ _ NE FM IN)
      as (a & s' & V & _ & _ & M).
    assert (NF : new_fills (ax vis_abc) a <> []).
    { pose proof V as V'. vm_compute in V'. injection V' as <- _.
      vm_compute. discriminate. }
    exists a, s'. split; [exact V|]. split; [exact NF|].
    apply (M 2.5 CV NF). reflexivity.
  - destruct (view_marker_needs_fill (Some run_no_value) vis_abc _ _
                NE FN IN) as (a & s' & V & _ & N & _).
    exists a, s'. split; [exact V|]. apply N. now left.
Defined.


(** C9 does not hold as stated: after two identical calls the axes
    returned hold every line twice, and the fill of the second call
    has the colour of the fifth line plotted, not that of the
    second. *)
Lemma view_twice_axes_accumulate :
  exists a1 self1 a2 self2,
    view (Some run_high) vis_abc = (Returned a1, self1) /\
    view (Some run_high) self1 = (Returned a2, self2) /\
    map line_label (lines a1) = ["A"; "B"; "C"; "crisp value"] /\
    map line_label (lines a2)
    = ["A"; "B"; "C"; "crisp value"; "A"; "B"; "C"; "crisp value"] /\
    map facecolor (new_fills (ax vis_abc) a1) = [CycleColor 1] /\
    map facecolor (new_fills a1 a2) = [CycleColor 4] /\
    a2 <> a1.
Proof.
  do 4 eexists.
  split; [vm_compute; reflexivity|]. split; [vm_compute; reflexivity|].
  repeat split; try (vm_compute; reflexivity).
  intros E. apply (f_equal (fun a => length (lines a))) in E.
  vm_compute in E. discriminate.
Qed.

(** Two calls in a row on the variable with the terms A, B, C. *)
Lemma view_twice_same_descriptors_witness :
  universe (fuzzy_var vis_abc) <> [] /\
  exists a1 self1 a2 self2,
    view (Some run_high) vis_abc = (Returned a1, self1) /\
    view (Some run_high) self1 = (Returned a2, self2) /\
    lines a2 = lines a1 ++ new_lines a1 a2 /\
    collections a2 = collections a1 ++ new_fills a1 a2 /\
    map line_geometry (new_lines a1 a2)
    = map line_geometry (new_lines (ax vis_abc) a1) /\
    map fill_geometry (new_fills a1 a2)
    = map fill_geometry (new_fills (ax vis_abc) a1).
Proof.
  assert (NE : universe (fuzzy_var vis_abc) <> []) by discriminate.
  split; [exact NE|].
  exact (view_twice_same_descriptors (Some run_high) vis_abc NE).
Defined.

(** * Further properties of the methods *)

Section Limits.

Lemma Qmin_cases (x y : Q) : Qmin x y = x \/ Qmin x y = y.
Proof.
  unfold Qmin, GenericMinMax.gmin. destruct (x ?= y); auto.
Qed.

Lemma Qmax_cases (x y : Q) : Qmax x y = x \/ Qmax x y = y.
Proof.
  unfold Qmax, GenericMinMax.gmax. destruct (x ?= y); auto.
Qed.

Lemma fold_min_spec (r : list Q) (x : Q) :
  In (fold_left Qmin r x) (x :: r) /\
  forall y, In y (x :: r) -> fold_left Qmin r x <= y.
Proof.
  revert x. induction r as [|z r IH]; intros x; simpl.
  - split; [now left|]. intros y [<-|[]]. apply Qle_refl.
  - destruct (IH (Qmin x z)) as [I B]. split.
    + destruct I as [E|I]; [|right; now right].
      rewrite <- E. destruct (Qmin_cases x z) as [-> | ->]; auto.
    + intros y [<-|[<-|Hy]].
      * eapply Qle_trans; [apply B; now left|apply Q.le_min_l].
      * eapply Qle_trans; [apply B; now left|apply Q.le_min_r].
      * apply B. now right.
Qed.

Lemma fold_max_spec (r : list Q) (x : Q) :
  In (fold_left Qmax r x) (x :: r) /\
  forall y, In y (x :: r) -> y <= fold_left Qmax r x.
Proof.
  revert x. induction r as [|z r IH]; intros x; simpl.
  - split; [now left|]. intros y [<-|[]]. apply Qle_refl.
  - destruct (IH (Qmax x z)) as [I B]. split.
    + destruct I as [E|I]; [|right; now right].
      rewrite <- E. destruct (Qmax_cases x z) as [-> | ->]; auto.
    + intros y [<-|[<-|Hy]].
      * eapply Qle_trans; [apply Q.le_max_l|apply B; now left].
      * eapply Qle_trans; [apply Q.le_max_r|apply B; now left].
      * apply B. now right.
Qed.

(** [a.min()] is an element of the array below all of them, and
    [a.max()] one above all of them. *)
Lemma array_min_spec (a : list Q) (lo : Q) :
  array_min a = Some lo -> In lo a /\ forall y, In y a -> lo <= y.
Proof.
  destruct a as [|x r]; simpl; [discriminate|]. intros [= <-].
  apply fold_min_spec.
Qed.

Lemma array_max_spec (a : list Q) (hi : Q) :
  array_max a = Some hi -> In hi a /\ forall y, In y a -> y <= hi.
Proof.
  destruct a as [|x r]; simpl; [discriminate|]. intros [= <-].
  apply fold_max_spec.
Qed.

End Limits.

Section Further.

Context {Simulation : Type} {collab : Collaborators Simulation}.
Implicit Types (self : FuzzyVariableVisualizer Simulation).
Implicit Types (sim : option Simulation).
Implicit Types (output_mf : list Q) (cut_mfs : Dict.t (list Q)).
Implicit Types (d : Dict.t Line2D).

(** [view] after an [_init_plot] that returns. *)
Lemma view_after_init sim self (lo hi : Q) :
  _init_plot self = (Returned tt, after_init_plot self lo hi) ->
  view sim self
  = (Returned (ax (after_view sim self lo hi)), after_view sim self lo hi).
Proof.
  intros I. unfold view. unfold bind at 1. rewrite I.
  unfold bind at 1, get_self at 1.
  change (fuzzy_var (after_init_plot self lo hi)) with (fuzzy_var self).
  unfold after_view, marker_lines, marker_for, activated.
  destruct (find_memberships (fuzzy_var self) (sim_of sim))
    as [output_mf cut_mfs].
  unfold bind at 1, Dict.items. rewrite fill_loop.
  cbv beta iota zeta. simpl snd. simpl fst.
  destruct ((0 <? Dict.len cut_mfs)%nat && negb (all_zero output_mf)).
  - destruct (crisp_value_of (fuzzy_var self) (sim_of sim)) as [x|].
    + cbn. reflexivity.
    + cbn. rewrite app_nil_r. reflexivity.
  - cbn. rewrite app_nil_r. reflexivity.
Qed.

(** A call that returned ran over a non-empty universe and left the
    instance in its closed form. *)
Lemma view_returned sim self (a : Axes) self' :
  view sim self = (Returned a, self') ->
  universe (fuzzy_var self) <> [] /\
  exists lo hi,
    array_min (universe (fuzzy_var self)) = Some lo /\
    array_max (universe (fuzzy_var self)) = Some hi /\
    self' = after_view sim self lo hi /\
    a = ax (after_view sim self lo hi).
Proof.
  intros V. destruct (universe (fuzzy_var self)) as [|x r] eqn:U.
  - rewrite view_raises in V by assumption. discriminate.
  - split; [discriminate|].
    destruct (init_plot_returns self) as (lo & hi & Lo & Hi & I);
      [congruence|].
    rewrite U in Lo, Hi. exists lo, hi.
    rewrite (view_after_init sim self lo hi I) in V.
    injection V as <- <-. auto.
Qed.

Lemma new_lines_after_view sim self (lo hi : Q) :
  new_lines (ax self) (ax (after_view sim self lo hi))
  = curves_of self ++ marker_lines (fuzzy_var self) (sim_of sim).
Proof.
  unfold new_lines. simpl. rewrite <- app_assoc. apply skipn_length_app.
Qed.

Lemma new_fills_after_view sim self (lo hi : Q) :
  new_fills (ax self) (ax (after_view sim self lo hi))
  = overlay_fills (universe (fuzzy_var self))
                  (snd (find_memberships (fuzzy_var self) (sim_of sim)))
                  (cache_lines (curves_of self) (plots self)).
Proof.
  unfold new_fills. simpl. apply skipn_length_app.
Qed.

Lemma display_curves_width (t : option string) (univ : list Q) (n : nat)
      (items : list (string * Term)) (l : Line2D) :
  In l (display_curves t univ n items) ->
  linewidth l = (if is_term t (line_label l) then 3 else 1).
Proof.
  revert n. induction items as [|kt r IH]; simpl; intros n; [contradiction|].
  intros [<-|I]; [reflexivity|eauto].
Qed.

(** Assigning to a key that is absent appends it. *)
Lemma keys_set_absent (k : string) (v : Line2D) d :
  ~ In k (Dict.keys d) -> Dict.keys (Dict.set k v d) = Dict.keys d ++ [k].
Proof.
  unfold Dict.keys. induction d as [|[k0 v0] r IH]; simpl; intros N.
  - reflexivity.
  - destruct (String.eqb_spec k k0) as [->|_]; [tauto|].
    simpl. rewrite IH; tauto.
Qed.

(** Caching lines with fresh, pairwise distinct labels appends the
    labels in order. *)
Lemma cache_keys_fresh (cs : list Line2D) d :
  NoDup (Dict.keys d ++ map line_label cs) ->
  Dict.keys (cache_lines cs d) = Dict.keys d ++ map line_label cs.
Proof.
  revert d. induction cs as [|c r IH]; simpl; intros d ND.
  - now rewrite app_nil_r.
  - assert (N : ~ In (line_label c) (Dict.keys d)).
    { intros I. apply NoDup_remove_2 in ND. apply ND.
      apply in_or_app. now left. }
    rewrite IH; rewrite keys_set_absent by assumption;
      rewrite <- app_assoc; [reflexivity|exact ND].
Qed.

(** With pairwise distinct term labels, the cache of a reachable
    instance is empty or has the term labels as its keys, in order. *)
Lemma reachable_cache_keys self :
  reachable self ->
  NoDup (Dict.keys (terms (fuzzy_var self))) ->
  plots self = [] \/
  Dict.keys (plots self) = Dict.keys (terms (fuzzy_var self)).
Proof.
  induction 1 as [arg|self self' sim a R IH V].
  - left. now destruct arg.
  - intros ND. apply view_returned in V.
    destruct V as (_ & lo & hi & _ & _ & -> & _). simpl in *. right.
    assert (L : map line_label (curves_of self)
                = Dict.keys (terms (fuzzy_var self)))
      by apply display_curves_labels.
    destruct (IH ND) as [E|E].
    + rewrite E. rewrite cache_keys_fresh; simpl; now rewrite L.
    + rewrite cache_keys_present; [exact E|].
      rewrite L, E. apply incl_refl.
Qed.

Lemma overlay_fills_upper (univ : list Q) cut_mfs d :
  map fill_y2 (overlay_fills univ cut_mfs d) = cuts_of cut_mfs (Dict.keys d).
Proof.
  unfold overlay_fills, cuts_of, Dict.keys.
  induction d as [|[k l] r IH]; simpl; [reflexivity|].
  rewrite map_app, IH. f_equal.
  unfold overlay_fill. simpl. now destruct (Dict.get k cut_mfs).
Qed.

Lemma overlay_fills_shape (univ : list Q) cut_mfs d :
  Forall (fun p => fill_x p = univ /\ fill_y1 p = zeros_like univ /\
                   alpha p = 0.4)
         (overlay_fills univ cut_mfs d).
Proof.
  apply Forall_forall. intros p I. apply overlay_fills_In in I.
  destruct I as (k & l & cut & _ & _ & ->). simpl. auto.
Qed.

Lemma zeros_like_spec (a : list Q) :
  length (zeros_like a) = length a /\ Forall (fun z => z = 0) (zeros_like a).
Proof.
  unfold zeros_like. split; [apply repeat_length|].
  apply Forall_forall. intros z I. now apply repeat_spec in I.
Qed.

End Further.

Section Behaviour.

Context {Simulation : Type} {collab : Collaborators Simulation}.
Implicit Types (self : FuzzyVariableVisualizer Simulation).
Implicit Types (sim : option Simulation).
Implicit Types (output_mf : list Q) (cut_mfs : Dict.t (list Q)).

Lemma curves_of_length self :
  length (curves_of self) = length (terms (fuzzy_var self)).
Proof.
  unfold curves_of. generalize (prop_cycle (ax self)).
  induction (terms (fuzzy_var self)); simpl; auto.
Qed.

Lemma overlay_fills_length (univ : list Q) cut_mfs (d : Dict.t Line2D) :
  (length (overlay_fills univ cut_mfs d) <= length d)%nat.
Proof.
  unfold overlay_fills. induction d as [|lp r IH]; simpl; [lia|].
  rewrite length_app. unfold overlay_fill at 1.
  destruct (Dict.get (fst lp) cut_mfs); simpl; lia.
Qed.

(** The marker lines are none, or the one marker of the crisp
    value. *)
Lemma marker_lines_cases (var : FuzzyVariable Simulation) (s : Simulation) :
  marker_lines var s = [] \/
  exists x,
    crisp_value_of var s = Some x /\
    marker_lines var s
    = [marker (universe var) (fst (find_memberships var s)) x].
Proof.
  unfold marker_lines, marker_for. destruct (activated var s); [|now left].
  destruct (crisp_value_of var s) as [x|]; [|now left].
  right. now exists x.
Qed.

(** X1.  When the universe of its variable is empty, [view] raises
    [ValueError], as [_init_plot] does, and leaves the instance as it
    was but for the limits of the y axis: nothing is drawn, nothing
    is cached, the x limits are not set.  Calling again raises again
    and changes nothing more. *)
Theorem view_empty_universe sim self :
  universe (fuzzy_var self) = [] ->
  exists self',
    view sim self = (Raised "ValueError", self') /\
    _init_plot self = (Raised "ValueError", self') /\
    term self' = term self /\
    fuzzy_var self' = fuzzy_var self /\
    plots self' = plots self /\
    lines (ax self') = lines (ax self) /\
    collections (ax self') = collections (ax self) /\
    xlim (ax self') = xlim (ax self) /\
    ylim (ax self') = Some (0, 1.01) /\
    view sim self' = (Raised "ValueError", self').
Proof.
  intros E.
  exists (mkVisualizer (term self) (fuzzy_var self)
                       (set_ylim (0, 1.01) (ax self)) (plots self)).
  split; [now apply view_raises|]. split; [now apply init_plot_raises|].
  repeat (split; [reflexivity|]).
  rewrite view_raises by exact E. reflexivity.
Qed.

(** X2.  After a [view] that returned, the y axis runs from 0 to
    1.01 and is labelled Membership, the x axis is labelled with the
    variable's label, and the x limits are the least and the greatest
    value of the universe, in whatever order the universe lists its
    values. *)
Theorem view_axis_limits sim self (a : Axes) self' :
  view sim self = (Returned a, self') ->
  ylim a = Some (0, 1.01) /\
  ylabel a = Some "Membership" /\
  xlabel a = Some (label (fuzzy_var self)) /\
  exists lo hi,
    xlim a = Some (lo, hi) /\
    In lo (universe (fuzzy_var self)) /\
    In hi (universe (fuzzy_var self)) /\
    forall x, In x (universe (fuzzy_var self)) -> lo <= x /\ x <= hi.
Proof.
  intros V. apply view_returned in V.
  destruct V as (_ & lo & hi & Lo & Hi & _ & ->). simpl.
  repeat (split; [reflexivity|]).
  apply array_min_spec in Lo. apply array_max_spec in Hi.
  destruct Lo as [L1 L2], Hi as [H1 H2].
  exists lo, hi. repeat split; auto.
Qed.

(** X3.  After a [view] that returned, every label of the term set
    looks up, in the cache, a curve drawn by this call under that
    label, over the universe, for a term of that label; when the
    labels of the term set are pairwise distinct it is the curve of
    the term itself. *)
Theorem view_caches_term_curves sim self (a : Axes) self'
        (k : string) (t : Term) :
  view sim self = (Returned a, self') ->
  In (k, t) (terms (fuzzy_var self)) ->
  exists l t',
    Dict.get k (plots self') = Some l /\
    In l (new_lines (ax self) a) /\
    In (k, t') (terms (fuzzy_var self)) /\
    line_label l = k /\
    xdata l = universe (fuzzy_var self) /\
    ydata l = mf t' /\
    (NoDup (Dict.keys (terms (fuzzy_var self))) -> t' = t).
Proof.
  intros V I. apply view_returned in V.
  destruct V as (_ & lo & hi & _ & _ & -> & ->).
  rewrite new_lines_after_view. simpl.
  assert (K : In k (map line_label (curves_of self))).
  { unfold curves_of. rewrite display_curves_labels.
    apply (In_keys _ _ _ I). }
  destruct (cache_get (curves_of self) (plots self) k K) as (c & G & Ic & E).
  destruct (display_curves_In _ _ _ _ _ Ic) as ([k' t'] & It & E1 & E2 & E3).
  simpl in E1, E3. rewrite <- E1, E in It.
  exists c, t'. split; [exact G|]. split; [apply in_or_app; now left|].
  repeat (split; [assumption|]).
  intros ND. apply (In_get _ _ _ ND) in I. apply (In_get _ _ _ ND) in It.
  congruence.
Qed.

(** X4.  A [view] that returned has kept the variable and the bolded
    term of the instance, has kept every line and fill that was on
    the axes, in place, and has added after them one line per entry
    of the term set and at most one more, and at most one fill per
    cached label. *)
Theorem view_frame sim self (a : Axes) self' :
  view sim self = (Returned a, self') ->
  ax self' = a /\
  term self' = term self /\
  fuzzy_var self' = fuzzy_var self /\
  lines a = lines (ax self) ++ new_lines (ax self) a /\
  collections a = collections (ax self) ++ new_fills (ax self) a /\
  (length (new_lines (ax self) a) = length (terms (fuzzy_var self)) \/
   length (new_lines (ax self) a) = S (length (terms (fuzzy_var self)))) /\
  (length (new_fills (ax self) a) <= length (plots self'))%nat.
Proof.
  intros V. apply view_returned in V.
  destruct V as (_ & lo & hi & _ & _ & -> & ->).
  rewrite new_lines_after_view, new_fills_after_view. simpl.
  repeat (split; [reflexivity|]).
  split; [now rewrite <- app_assoc|]. split; [reflexivity|]. split.
  - rewrite length_app, curves_of_length.
    destruct (marker_lines_cases (fuzzy_var self) (sim_of sim))
      as [-> | (x & _ & ->)]; simpl; [left|right]; lia.
  - apply overlay_fills_length.
Qed.

(** X5.  On an instance built by the constructor and taken through
    any number of [view] calls, for a variable whose term labels are
    pairwise distinct and whose universe is not empty, [view] leaves
    the term labels as the keys of the cache, in the order of the
    term set, and draws exactly one fill per term that has a cut, in
    the order of the term set whatever the order of the cut mapping:
    the upper bounds of the fills are the cut curves of those terms,
    each fill spans the universe above a lower bound that is zero at
    every point of the universe, at opacity 0.4. *)
Theorem view_one_fill_per_cut_term sim self output_mf cut_mfs :
  reachable self ->
  NoDup (Dict.keys (terms (fuzzy_var self))) ->
  universe (fuzzy_var self) <> [] ->
  find_memberships (fuzzy_var self) (sim_of sim) = (output_mf, cut_mfs) ->
  exists a self',
    view sim self = (Returned a, self') /\
    Dict.keys (plots self') = Dict.keys (terms (fuzzy_var self)) /\
    map fill_y2 (new_fills (ax self) a)
    = cuts_of cut_mfs (Dict.keys (terms (fuzzy_var self))) /\
    Forall (fun p =>
              fill_x p = universe (fuzzy_var self) /\
              length (fill_y1 p) = length (universe (fuzzy_var self)) /\
              Forall (fun z => z = 0) (fill_y1 p) /\
              alpha p = 0.4)
           (new_fills (ax self) a).
Proof.
  intros R ND NE FM.
  destruct (view_drawn sim self NE) as (a & s' & V & _ & _ & Fv & _ & _ & F).
  rewrite FM in F. simpl in F.
  assert (R' : reachable s') by (eapply reach_view; eassumption).
  assert (K : Dict.keys (plots s') = Dict.keys (terms (fuzzy_var self))).
  { destruct (reachable_cache_keys s' R') as [E|E].
    - now rewrite Fv.
    - apply view_returned in V.
      destruct V as (_ & lo & hi & _ & _ & -> & _). simpl in E.
      assert (L : map line_label (curves_of self)
                  = Dict.keys (terms (fuzzy_var self)))
        by apply display_curves_labels.
      destruct (reachable_cache_keys self R ND) as [P|P].
      + simpl. rewrite P, cache_keys_fresh; simpl; now rewrite L.
      + simpl. rewrite cache_keys_present; [exact P|].
        rewrite L, P. apply incl_refl.
    - now rewrite <- Fv. }
  exists a, s'. split; [exact V|]. split; [exact K|]. split.
  - now rewrite F, overlay_fills_upper, K.
  - rewrite F. eapply Forall_impl; [|apply overlay_fills_shape].
    intros p (X & Y & Z). rewrite Y.
    destruct (zeros_like_spec (universe (fuzzy_var self))). auto.
Qed.

(** X6.  After a [view] that returned, a line drawn by this call
    after its display curves is the marker of the crisp value: two
    points at the crisp value, from 0 up to a height that is never
    below 0.1 and is either 1 or the height interpolated on the
    aggregate curve, drawn in the colour k with width 3 and labelled
    crisp value. *)
Theorem view_marker_height sim self (a : Axes) self' (m : Line2D) :
  view sim self = (Returned a, self') ->
  nth_error (new_lines (ax self) a) (length (terms (fuzzy_var self)))
  = Some m ->
  exists x h,
    crisp_value_of (fuzzy_var self) (sim_of sim) = Some x /\
    xdata m = [x; x] /\
    ydata m = [0; h] /\
    0.1 <= h /\
    (h = 1 \/
     h = interp_membership (universe (fuzzy_var self))
           (fst (find_memberships (fuzzy_var self) (sim_of sim))) x) /\
    line_label m = "crisp value" /\
    linewidth m = 3 /\
    line_color m = NamedColor "k".
Proof.
  intros V I. apply view_returned in V.
  destruct V as (_ & lo & hi & _ & _ & _ & ->).
  rewrite new_lines_after_view, <- curves_of_length in I.
  rewrite nth_error_app2, Nat.sub_diag in I by lia.
  destruct (marker_lines_cases (fuzzy_var self) (sim_of sim))
    as [E | (x & CV & E)]; rewrite E in I; [discriminate|].
  injection I as <-. unfold marker. simpl.
  set (y := interp_membership _ _ x).
  exists x, (if Qltb y 0.1 then 1 else y).
  repeat (split; [reflexivity || assumption|]).
  split; [|split]; auto.
  - destruct (Qltb y 0.1) eqn:B; [discriminate|now apply Qltb_ge].
  - destruct (Qltb y 0.1); auto.
Qed.

(** X7.  The simulation bears on the fills and on the marker only.
    Over a non-empty universe, two [view] calls on one state of an
    instance, under any two simulations, both return, with the same
    display curves, the same cache and the same axis limits; and when
    the two simulations give the same cut mapping, with the same
    fills, whatever their aggregate curves and crisp values. *)
Theorem view_curves_ignore_simulation sim1 sim2 self :
  universe (fuzzy_var self) <> [] ->
  exists a1 self1 a2 self2,
    view sim1 self = (Returned a1, self1) /\
    view sim2 self = (Returned a2, self2) /\
    plots self1 = plots self2 /\
    firstn (length (terms (fuzzy_var self))) (new_lines (ax self) a1)
    = firstn (length (terms (fuzzy_var self))) (new_lines (ax self) a2) /\
    xlim a1 = xlim a2 /\
    ylim a1 = ylim a2 /\
    (snd (find_memberships (fuzzy_var self) (sim_of sim1))
     = snd (find_memberships (fuzzy_var self) (sim_of sim2)) ->
     new_fills (ax self) a1 = new_fills (ax self) a2).
Proof.
  intros NE.
  destruct (view_drawn sim1 self NE) as (a1 & s1 & V1 & _).
  destruct (view_drawn sim2 self NE) as (a2 & s2 & V2 & _).
  exists a1, s1, a2, s2. split; [exact V1|]. split; [exact V2|].
  apply view_returned in V1. apply view_returned in V2.
  destruct V1 as (_ & lo1 & hi1 & Lo1 & Hi1 & -> & ->).
  destruct V2 as (_ & lo2 & hi2 & Lo2 & Hi2 & -> & ->).
  assert (lo2 = lo1) by congruence. assert (hi2 = hi1) by congruence.
  subst lo2 hi2.
  rewrite !new_lines_after_view, !new_fills_after_view. simpl.
  split; [reflexivity|]. split.
  - rewrite <- curves_of_length, !firstn_app, !Nat.sub_diag, !firstn_all.
    reflexivity.
  - repeat (split; [reflexivity|]). now intros ->.
Qed.

(** X8.  A visualizer built for a term plots the whole of the term's
    parent variable: over a non-empty universe, the first
    [_init_plot] of a new visualizer leaves on the axes one line per
    term of the variable, labelled as the term set in order, and no
    fill.  Built for a term, it draws in bold exactly the lines
    labelled as that term; built for a variable, it draws none in
    bold. *)
Theorem init_plot_of_new_visualizer (arg : Plottable Simulation) :
  universe (fuzzy_var (__init__ arg)) <> [] ->
  exists self',
    _init_plot (__init__ arg) = (Returned tt, self') /\
    collections (ax self') = [] /\
    match arg with
    | OfVariable v =>
        map line_label (lines (ax self')) = Dict.keys (terms v) /\
        Forall (fun l => linewidth l = 1) (lines (ax self'))
    | OfTerm t parent_variable =>
        map line_label (lines (ax self'))
        = Dict.keys (terms parent_variable) /\
        Forall (fun l =>
                  (line_label l = term_label t -> linewidth l = 3) /\
                  (line_label l <> term_label t -> linewidth l = 1))
               (lines (ax self'))
    end.
Proof.
  intros NE.
  destruct (init_plot_drawn (__init__ arg) NE)
    as (s' & I & _ & _ & _ & L & F).
  exists s'. split; [exact I|].
  assert (L' : lines (ax s') = curves_of (__init__ arg)).
  { rewrite <- L. now destruct arg. }
  assert (F' : collections (ax s') = []).
  { rewrite <- F. now destruct arg. }
  split; [exact F'|]. rewrite L'. unfold curves_of.
  destruct arg as [v|t v]; simpl; (split; [apply display_curves_labels|]);
    apply Forall_forall; intros l Il;
    apply display_curves_width in Il; simpl in Il.
  - exact Il.
  - rewrite Il. split.
    + intros ->. now rewrite String.eqb_refl.
    + intros N. destruct (String.eqb_spec (term_label t) (line_label l));
        [congruence|reflexivity].
Qed.

(** X9.  [view] obtains the cut mapping from its own variable, so
    its labels are among the labels of the term set.  Over a
    non-empty universe no entry of the cut mapping is then passed
    over: every label that has a cut is cached, and its fill is
    drawn, over the universe, from zeros up to its cut curve, in the
    colour of the line cached for it. *)
Theorem view_fills_every_cut sim self output_mf cut_mfs :
  universe (fuzzy_var self) <> [] ->
  find_memberships (fuzzy_var self) (sim_of sim) = (output_mf, cut_mfs) ->
  incl (Dict.keys cut_mfs) (Dict.keys (terms (fuzzy_var self))) ->
  exists a self',
    view sim self = (Returned a, self') /\
    forall k cut,
      Dict.get k cut_mfs = Some cut ->
      exists l,
        Dict.get k (plots self') = Some l /\
        In (mkPoly (universe (fuzzy_var self))
                   (zeros_like (universe (fuzzy_var self)))
                   cut (get_color l) 0.4)
           (new_fills (ax self) a).
Proof.
  intros NE FM IN.
  destruct (view_drawn sim self NE) as (a & s' & V & _ & _ & _ & P & _ & F).
  rewrite FM in F. simpl in F.
  exists a, s'. split; [exact V|]. intros k cut G.
  assert (Hk : In k (Dict.keys (terms (fuzzy_var self)))).
  { apply IN. apply get_In in G. apply (In_keys _ _ _ G). }
  apply (in_map_iff fst) in Hk. destruct Hk as ([k' t] & Ek & Hk).
  simpl in Ek. subst k'. rewrite F, P.
  now apply cached_term_filled with (tm := t).
Qed.

End Behaviour.

(** * The further properties on the concrete package *)

(** A variable over an empty universe: [view] raises and draws
    nothing, twice. *)
Lemma view_empty_universe_witness :
  universe (fuzzy_var vis_empty) = [] /\
  exists self',
    view (Some run_high) vis_empty = (Raised "ValueError", self') /\
    plots self' = [] /\
    lines (ax self') = [] /\
    collections (ax self') = [] /\
    xlim (ax self') = None /\
    ylim (ax self') = Some (0, 1.01) /\
    view (Some run_high) self' = (Raised "ValueError", self').
Proof.
  split; [reflexivity|].
  destruct (view_empty_universe (Some run_high) vis_empty eq_refl)
    as (s' & V & _ & _ & _ & P & L & C & X & Y & V2).
  exists s'. repeat (split; [assumption|]). exact V2.
Defined.

(** The universe 2, 0, 4, 1, 3: the x limits are bounds of it taken
    from it. *)
Lemma view_axis_limits_witness :
  exists a self',
    view (Some run_flat) vis_unsorted = (Returned a, self') /\
    ylim a = Some (0, 1.01) /\
    ylabel a = Some "Membership" /\
    xlabel a = Some "speed" /\
    exists lo hi,
      xlim a = Some (lo, hi) /\
      In lo [2; 0; 4; 1; 3] /\
      In hi [2; 0; 4; 1; 3] /\
      forall x, In x [2; 0; 4; 1; 3] -> lo <= x /\ x <= hi.
Proof.
  assert (NE : universe (fuzzy_var vis_unsorted) <> []) by discriminate.
  destruct (view_drawn (Some run_flat) vis_unsorted NE) as (a & s' & V & _).
  exists a, s'. split; [exact V|].
  exact (view_axis_limits (Some run_flat) vis_unsorted a s' V).
Defined.

(** The label B looks up the curve of the term B. *)
Lemma view_caches_term_curves_witness :
  In ("B", term_B) (terms (fuzzy_var vis_abc)) /\
  NoDup (Dict.keys (terms (fuzzy_var vis_abc))) /\
  exists a self' l,
    view (Some run_high) vis_abc = (Returned a, self') /\
    Dict.get "B" (plots self') = Some l /\
    In l (new_lines (ax vis_abc) a) /\
    line_label l = "B" /\
    xdata l = universe5 /\
    ydata l = mf term_B.
Proof.
  assert (NE : universe (fuzzy_var vis_abc) <> []) by discriminate.
  assert (I : In ("B", term_B) (terms (fuzzy_var vis_abc)))
    by (simpl; auto).
  assert (ND : NoDup (Dict.keys (terms (fuzzy_var vis_abc)))).
  { repeat constructor; simpl; intuition discriminate. }
  split; [exact I|]. split; [exact ND|].
  destruct (view_drawn (Some run_high) vis_abc NE) as (a & s' & V & _).
  destruct (view_caches_term_curves (Some run_high) vis_abc a s'
              "B" term_B V I)
    as (l & t' & G & Il & _ & E1 & E2 & E3 & T).
  exists a, s', l. rewrite (T ND) in E3. auto 10.
Defined.

(** One call on the variable with the terms A, B, C. *)
Lemma view_frame_witness :
  exists a self',
    view (Some run_high) vis_abc = (Returned a, self') /\
    ax self' = a /\
    term self' = None /\
    fuzzy_var self' = var_abc /\
    lines a = lines (ax vis_abc) ++ new_lines (ax vis_abc) a /\
    collections a = collections (ax vis_abc) ++ new_fills (ax vis_abc) a /\
    (length (new_lines (ax vis_abc) a) = 3%nat \/
     length (new_lines (ax vis_abc) a) = 4%nat) /\
    (length (new_fills (ax vis_abc) a) <= length (plots self'))%nat.
Proof.
  assert (NE : universe (fuzzy_var vis_abc) <> []) by discriminate.
  destruct (view_drawn (Some run_high) vis_abc NE) as (a & s' & V & _).
  exists a, s'. split; [exact V|].
  exact (view_frame (Some run_high) vis_abc a s' V).
Defined.

(** Cuts named C then A, on an instance that was viewed before: the
    fills are those of A then C. *)
Lemma view_one_fill_per_cut_term_witness :
  reachable vis_abc_viewed /\
  NoDup (Dict.keys (terms (fuzzy_var vis_abc_viewed))) /\
  universe (fuzzy_var vis_abc_viewed) <> [] /\
  find_memberships (fuzzy_var vis_abc_viewed) (sim_of (Some run_two))
  = (run_output_mf run_two, run_cut_mfs run_two) /\
  exists a self',
    view (Some run_two) vis_abc_viewed = (Returned a, self') /\
    Dict.keys (plots self') = ["A"; "B"; "C"] /\
    map fill_y2 (new_fills (ax vis_abc_viewed) a)
    = [[1; 0.5; 0; 0; 0]; [0; 0; 0; 0.5; 1]].
Proof.
  assert (R : reachable vis_abc_viewed).
  { eapply (reach_view vis_abc vis_abc_viewed (Some run_high));
      [apply reach_init|].
    vm_compute. reflexivity. }
  assert (ND : NoDup (Dict.keys (terms (fuzzy_var vis_abc_viewed)))).
  { vm_compute. repeat constructor; simpl; intuition discriminate. }
  assert (NE : universe (fuzzy_var vis_abc_viewed) <> [])
    by (vm_compute; discriminate).
  assert (FM : find_memberships (fuzzy_var vis_abc_viewed)
                                (sim_of (Some run_two))
               = (run_output_mf run_two, run_cut_mfs run_two))
    by (vm_compute; reflexivity).
  split; [exact R|]. split; [exact ND|]. split; [exact NE|].
  split; [exact FM|].
  destruct (view_one_fill_per_cut_term (Some run_two) vis_abc_viewed
              _ _ R ND NE FM) as (a & s' & V & K & U & _).
  exists a, s'. split; [exact V|]. split; [exact K|exact U].
Defined.

(** The marker of [run_low]: raised to 1, which is not below 0.1. *)
Lemma view_marker_height_witness :
  exists a self' m,
    view (Some run_low) vis_abc = (Returned a, self') /\
    nth_error (new_lines (ax vis_abc) a) 3 = Some m /\
    exists x h,
      crisp_value_of (fuzzy_var vis_abc) (sim_of (Some run_low)) = Some x /\
      xdata m = [x; x] /\
      ydata m = [0; h] /\
      0.1 <= h /\
      (h = 1 \/
       h = interpolate universe5 (run_output_mf run_low) x) /\
      line_label m = "crisp value" /\
      linewidth m = 3 /\
      line_color m = NamedColor "k".
Proof.
  assert (NE : universe (fuzzy_var vis_abc) <> []) by discriminate.
  destruct (view_drawn (Some run_low) vis_abc NE)
    as (a & s' & V & _ & _ & _ & _ & L & _).
  exists a, s', (marker universe5 (run_output_mf run_low) 2.5).
  assert (I : nth_error (new_lines (ax vis_abc) a) 3
              = Some (marker universe5 (run_output_mf run_low) 2.5)).
  { rewrite L. reflexivity. }
  split; [exact V|]. split; [exact I|].
  exact (view_marker_height (Some run_low) vis_abc a s' _ V I).
Defined.

(** [run_high] and [run_flat] cut B alike and differ in aggregate and
    crisp value: same curves, same cache, same fills. *)
Lemma view_curves_ignore_simulation_witness :
  universe (fuzzy_var vis_abc) <> [] /\
  snd (find_memberships (fuzzy_var vis_abc) (sim_of (Some run_high)))
  = snd (find_memberships (fuzzy_var vis_abc) (sim_of (Some run_flat))) /\
  exists a1 self1 a2 self2,
    view (Some run_high) vis_abc = (Returned a1, self1) /\
    view (Some run_flat) vis_abc = (Returned a2, self2) /\
    plots self1 = plots self2 /\
    firstn 3 (new_lines (ax vis_abc) a1)
    = firstn 3 (new_lines (ax vis_abc) a2) /\
    xlim a1 = xlim a2 /\
    ylim a1 = ylim a2 /\
    new_fills (ax vis_abc) a1 = new_fills (ax vis_abc) a2.
Proof.
  assert (NE : universe (fuzzy_var vis_abc) <> []) by discriminate.
  assert (C : snd (find_memberships (fuzzy_var vis_abc)
                                    (sim_of (Some run_high)))
              = snd (find_memberships (fuzzy_var vis_abc)
                                      (sim_of (Some run_flat))))
    by reflexivity.
  split; [exact NE|]. split; [exact C|].
  destruct (view_curves_ignore_simulation (Some run_high) (Some run_flat)
              vis_abc NE)
    as (a1 & s1 & a2 & s2 & V1 & V2 & P & F & X & Y & Z).
  exists a1, s1, a2, s2. repeat (split; [assumption|]). exact (Z C).
Defined.

(** The visualizer of the term B plots A, B and C and bolds B. *)
Lemma init_plot_of_new_visualizer_witness :
  universe (fuzzy_var (__init__ (OfTerm term_B var_abc))) <> [] /\
  exists self',
    _init_plot (__init__ (OfTerm term_B var_abc)) = (Returned tt, self') /\
    collections (ax self') = [] /\
    map line_label (lines (ax self')) = ["A"; "B"; "C"] /\
    Forall (fun l =>
              (line_label l = "B" -> linewidth l = 3) /\
              (line_label l <> "B" -> linewidth l = 1))
           (lines (ax self')).
Proof.
  assert (NE : universe (fuzzy_var (__init__ (OfTerm term_B var_abc)))
               <> []) by discriminate.
  split; [exact NE|].
  destruct (init_plot_of_new_visualizer (OfTerm term_B var_abc) NE)
    as (s' & I & C & L & W).
  exists s'. auto.
Defined.

(** Cuts for C and for A: both are cached and filled. *)
Lemma view_fills_every_cut_witness :
  universe (fuzzy_var vis_abc) <> [] /\
  find_memberships (fuzzy_var vis_abc) (sim_of (Some run_two))
  = (run_output_mf run_two, run_cut_mfs run_two) /\
  incl (Dict.keys (run_cut_mfs run_two))
       (Dict.keys (terms (fuzzy_var vis_abc))) /\
  exists a self',
    view (Some run_two) vis_abc = (Returned a, self') /\
    forall k cut,
      Dict.get k (run_cut_mfs run_two) = Some cut ->
      exists l,
        Dict.get k (plots self') = Some l /\
        In (mkPoly universe5 (zeros_like universe5) cut (get_color l) 0.4)
           (new_fills (ax vis_abc) a).
Proof.
  assert (NE : universe (fuzzy_var vis_abc) <> []) by discriminate.
  assert (FM : find_memberships (fuzzy_var vis_abc) (sim_of (Some run_two))
               = (run_output_mf run_two, run_cut_mfs run_two))
    by reflexivity.
  assert (IN : incl (Dict.keys (run_cut_mfs run_two))
                    (Dict.keys (terms (fuzzy_var vis_abc)))).
  { intros k [<-|[<-|[]]]; simpl; auto. }
  split; [exact NE|]. split; [exact FM|]. split; [exact IN|].
  exact (view_fills_every_cut (Some run_two) vis_abc _ _ NE FM IN).
Defined.
